(** * wslink: the aiohttp websocket server protocol

    A shallow embedding of [wslink/aiohttp_websocket_server_protocol.py]:
    the protocol handler ([WslinkHandler]), its reply paths
    ([sendWrappedMessage], [sendWrappedError]), the attachment codec
    ([findAttachments]) and the idle-shutdown life cycle
    ([handleWsRequest], [_schedule_shutdown], [_stop_server]).

    Conventions of the embedding.
    - Python values are the inductive [value]; a [str] is a Rocq [string]
      (code points 0..255), [bytes] a list of bytes, a [dict] an association
      list in insertion order with string keys.  JSON numbers are integers.
    - Coroutines are run to completion: an [await] is sequential
      composition.  Effects live in the monad [M]: the state is the
      handler, the publish manager and the trace of transport and
      publish-manager calls in program order; a Python exception is the
      result [Raise], and the state reached when it is raised is kept.
    - [json.loads] is a parameter of the development; [json.dumps] is
      written out for the values of the model. *)

From Stdlib Require Import ZArith List String Ascii Bool Lia DecimalString.
Import ListNotations.
Open Scope string_scope.
Open Scope Z_scope.

Set Implicit Arguments.
Set Warnings "-register-all".

(** ** Python values *)

Definition bytes := list Byte.byte.

Inductive value : Type :=
| VNone
| VBool (b : bool)
| VInt (z : Z)
| VStr (s : string)
| VBytes (b : bytes)
| VList (l : list value)
| VDict (d : list (string * value)).

Definition pydict := list (string * value).

(** Induction over values that reaches inside lists and dicts. *)
Section value_induction.
Variable P : value -> Prop.
Hypothesis HNone : P VNone.
Hypothesis HBool : forall b, P (VBool b).
Hypothesis HInt : forall z, P (VInt z).
Hypothesis HStr : forall s, P (VStr s).
Hypothesis HBytes : forall b, P (VBytes b).
Hypothesis HList : forall l, Forall P l -> P (VList l).
Hypothesis HDict : forall d, Forall (fun kv => P (snd kv)) d -> P (VDict d).

Fixpoint value_rect' (v : value) : P v :=
  match v with
  | VNone => HNone
  | VBool b => HBool b
  | VInt z => HInt z
  | VStr s => HStr s
  | VBytes b => HBytes b
  | VList l =>
      HList ((fix go (l : list value) : Forall P l :=
                match l with
                | [] => Forall_nil _
                | x :: r => Forall_cons _ (value_rect' x) (go r)
                end) l)
  | VDict d =>
      HDict ((fix go (d : pydict) : Forall (fun kv => P (snd kv)) d :=
                match d with
                | [] => Forall_nil _
                | kv :: r => Forall_cons kv (value_rect' (snd kv)) (go r)
                end) d)
  end.
End value_induction.

(** [bool(o)]: the truth value of a Python object. *)
Definition truthy (o : value) : bool :=
  match o with
  | VNone => false
  | VBool b => b
  | VInt z => negb (z =? 0)
  | VStr s => negb (s =? "")%string
  | VBytes b => match b with [] => false | _ => true end
  | VList l => match l with [] => false | _ => true end
  | VDict d => match d with [] => false | _ => true end
  end.

(** Lists and dicts are unhashable: using one as a dict key raises
    [TypeError]. *)
Definition hashable (o : value) : bool :=
  match o with
  | VList _ | VDict _ => false
  | _ => true
  end.

(** Equality of dict keys: [==] on hashable values, where [True == 1] and
    [False == 0]. *)
Definition key_eqb (a b : value) : bool :=
  match a, b with
  | VNone, VNone => true
  | VBool x, VBool y => Bool.eqb x y
  | VBool x, VInt z | VInt z, VBool x => z =? (if x then 1 else 0)
  | VInt x, VInt y => x =? y
  | VStr x, VStr y => (x =? y)%string
  | VBytes x, VBytes y => if list_eq_dec Byte.byte_eq_dec x y then true else false
  | _, _ => false
  end.

(** [k in d] and [d[k]] for a dict with string keys. *)
Fixpoint dict_get (d : pydict) (k : string) : option value :=
  match d with
  | [] => None
  | (k', v) :: r => if (k' =? k)%string then Some v else dict_get r k
  end.

Definition dict_has (d : pydict) (k : string) : bool :=
  match dict_get d k with Some _ => true | None => false end.

(** [v == s] for a str [s]. *)
Definition str_eq (v : value) (s : string) : bool :=
  match v with
  | VStr x => (x =? s)%string
  | _ => false
  end.

(** ** Strings *)

(** [key in text] on strings. *)
Fixpoint contains (key text : string) : bool :=
  if prefix key text then true
  else match text with
       | EmptyString => false
       | String _ r => contains key r
       end.

(** [s.split(sep)] for a one-character separator. *)
Fixpoint split (sep : ascii) (s : string) : list string :=
  match s with
  | EmptyString => [EmptyString]
  | String c r =>
      if Ascii.eqb c sep then EmptyString :: split sep r
      else match split sep r with
           | [] => [String c EmptyString]
           | w :: ws => String c w :: ws
           end
  end.

Definition is_digit (c : ascii) : bool :=
  let n := nat_of_ascii c in (48 <=? n)%nat && (n <=? 57)%nat.

Definition newline : ascii := "010"%char.

(** The tail of [^wslink_bin\d+$] once a first digit was read: more
    digits, then the end of the string, or one newline and the end
    (Python's [$] also matches just before a final newline). *)
Fixpoint digits_then_end (s : string) : bool :=
  match s with
  | EmptyString => true
  | String c r =>
      if is_digit c then digits_then_end r
      else Ascii.eqb c newline && (r =? "")%string
  end.

Fixpoint strip_prefix (p s : string) : option string :=
  match p, s with
  | EmptyString, _ => Some s
  | String a p', String b s' => if Ascii.eqb a b then strip_prefix p' s' else None
  | _, EmptyString => None
  end.

(** [re.match(r"^wslink_bin\d+$", o)]. *)
Definition is_placeholder (o : string) : bool :=
  match strip_prefix "wslink_bin" o with
  | Some (String c r) => is_digit c && digits_then_end r
  | _ => false
  end.

(** ** [json.dumps(v, ensure_ascii=False)] *)

Definition dquote : ascii := "034"%char.
Definition backslash : ascii := "092"%char.

Definition hex_digit (n : nat) : ascii :=
  if (n <? 10)%nat then ascii_of_nat (48 + n) else ascii_of_nat (87 + n).

Definition escape_char (c : ascii) : string :=
  let n := nat_of_ascii c in
  if Ascii.eqb c dquote then String backslash (String dquote "")
  else if Ascii.eqb c backslash then String backslash (String backslash "")
  else if (n =? 10)%nat then String backslash "n"
  else if (n =? 13)%nat then String backslash "r"
  else if (n =? 9)%nat then String backslash "t"
  else if (n =? 8)%nat then String backslash "b"
  else if (n =? 12)%nat then String backslash "f"
  else if (n <? 32)%nat then
    String backslash
      ("u00" ++ String (hex_digit (n / 16)) (String (hex_digit (n mod 16)) ""))
  else String c "".

Fixpoint escape (s : string) : string :=
  match s with
  | EmptyString => ""
  | String c r => escape_char c ++ escape r
  end.

Definition quote (s : string) : string :=
  String dquote (escape s ++ String dquote "").

Definition string_of_Z (z : Z) : string := NilZero.string_of_int (Z.to_int z).

Fixpoint join (sep : string) (l : list string) : string :=
  match l with
  | [] => ""
  | [x] => x
  | x :: r => x ++ sep ++ join sep r
  end.

(** [None] stands for the [TypeError] that [json.dumps] raises on a value
    it cannot serialize ([bytes], in this model). *)
Fixpoint json_dumps (v : value) : option string :=
  match v with
  | VNone => Some "null"
  | VBool true => Some "true"
  | VBool false => Some "false"
  | VInt z => Some (string_of_Z z)
  | VStr s => Some (quote s)
  | VBytes _ => None
  | VList l =>
      let fix items (l : list value) : option (list string) :=
        match l with
        | [] => Some []
        | x :: r =>
            match json_dumps x, items r with
            | Some sx, Some sr => Some (sx :: sr)
            | _, _ => None
            end
        end in
      match items l with
      | Some ss => Some ("[" ++ join ", " ss ++ "]")
      | None => None
      end
  | VDict d =>
      let fix items (d : pydict) : option (list string) :=
        match d with
        | [] => Some []
        | (k, x) :: r =>
            match json_dumps x, items r with
            | Some sx, Some sr => Some ((quote k ++ ": " ++ sx) :: sr)
            | _, _ => None
            end
        end in
      match items d with
      | Some ss => Some ("{" ++ join ", " ss ++ "}")
      | None => None
      end
  end.

(** A value is serializable when no [bytes] occurs in it. *)
Fixpoint serializable (v : value) : bool :=
  match v with
  | VBytes _ => false
  | VList l => forallb serializable l
  | VDict d => forallb (fun kv => serializable (snd kv)) d
  | _ => true
  end.


(** ** The publish manager *)

(** Modelled from the spec: the publish manager of [wslink/publish.py],
    which the handler reaches as [pub.publishManager].  Its attachment map
    takes a placeholder key to a blob with a reference count:
    [addAttachment] stores a blob under a fresh key [wslink_binN] with
    count 0, [registerAttachment] and [unregisterAttachment] move the
    count up and down around a send, [freeAttachments] removes the listed
    keys whose count is back to zero, [getAttachmentMap] is a snapshot. *)
Record attachment := { blob : bytes; refcount : Z }.

Record PublishManager := {
  attachmentMap : list (string * attachment);
  attachmentId : Z
}.

Fixpoint update_refcount (f : Z -> Z) (m : list (string * attachment)) (key : string)
  : list (string * attachment) :=
  match m with
  | [] => []
  | (k, a) :: r =>
      if (k =? key)%string
      then (k, {| blob := blob a; refcount := f (refcount a) |}) :: r
      else (k, a) :: update_refcount f r key
  end.

Definition registerAttachment (key : string) (p : PublishManager) : PublishManager :=
  {| attachmentMap := update_refcount Z.succ (attachmentMap p) key;
     attachmentId := attachmentId p |}.

Definition unregisterAttachment (key : string) (p : PublishManager) : PublishManager :=
  {| attachmentMap := update_refcount Z.pred (attachmentMap p) key;
     attachmentId := attachmentId p |}.

Definition mem (k : string) (l : list string) : bool :=
  existsb (String.eqb k) l.

Definition freeAttachments (keys : list string) (p : PublishManager) : PublishManager :=
  {| attachmentMap :=
       filter (fun e => negb (mem (fst e) keys && (refcount (snd e) =? 0)))
              (attachmentMap p);
     attachmentId := attachmentId p |}.

Definition addAttachment (payload : bytes) (p : PublishManager) : string * PublishManager :=
  let key := "wslink_bin" ++ string_of_Z (attachmentId p) in
  (key,
   {| attachmentMap := attachmentMap p ++ [(key, {| blob := payload; refcount := 0 |})];
      attachmentId := attachmentId p + 1 |}).

Definition getAttachmentMap (p : PublishManager) : list (string * bytes) :=
  map (fun e => (fst e, blob (snd e))) (attachmentMap p).

Fixpoint refcount_of (m : list (string * attachment)) (key : string) : option Z :=
  match m with
  | [] => None
  | (k, a) :: r => if (k =? key)%string then Some (refcount a) else refcount_of r key
  end.

(** ** Exceptions, events and the state *)

Inductive exn : Type :=
| JSONDecodeError
| KeyError
| IndexError
| TypeError
| AttributeError
| InvalidStateError
| UserException (repr trace : string).

(** [repr(e)] and [traceback.format_exc()] for the exception being
    handled.  An exception of user code carries both texts; for the
    interpreter's own exceptions only the class name is kept. *)
Definition class_name (e : exn) : string :=
  match e with
  | JSONDecodeError => "JSONDecodeError"
  | KeyError => "KeyError"
  | IndexError => "IndexError"
  | TypeError => "TypeError"
  | AttributeError => "AttributeError"
  | InvalidStateError => "InvalidStateError"
  | UserException _ _ => "Exception"
  end.

Definition repr_exn (e : exn) : string :=
  match e with UserException r _ => r | _ => class_name e end.

Definition format_exc (e : exn) : string :=
  match e with UserException _ t => t | _ => class_name e end.

Inductive result (A : Type) : Type :=
| Ok (a : A)
| Raise (e : exn).
Arguments Ok {A} a.
Arguments Raise {A} e.

(** A websocket object ([aiohttp.web.WebSocketResponse]) is known by a
    number. *)
Definition ws := nat.

(** What the handler does to the outside, in program order: frames
    written to a websocket, a websocket closed, and the calls into the
    publish manager that change it. *)
Inductive event : Type :=
| send_str (w : ws) (data : string)
| send_bytes (w : ws) (data : bytes)
| ws_close (w : ws) (code : Z) (message : string)
| pm_registerAttachment (key : string)
| pm_unregisterAttachment (key : string)
| pm_freeAttachments (keys : list string).

(** A registered RPC endpoint: the protocol object and its method.  The
    method is user code: it receives the object, the positional and the
    keyword arguments, may use the publish manager ([addAttachment]), and
    returns or raises. *)
Definition obj := nat.
Definition proc := obj -> list value -> pydict -> PublishManager ->
                   result value * PublishManager.

(** The server protocol object: its [secret] attribute, and the URIs that
    the inspection of its class members (and of its link protocols) finds,
    in scan order. *)
Record ServerProtocol := {
  secret : string;
  exposed : list (string * (obj * proc))
}.

Record WslinkHandler := {
  serverProtocol : option ServerProtocol;
  functionMap : list (string * (obj * proc));
  attachmentsReceived : list (value * bytes);
  attachmentsRecvQueue : list value;
  connections : list (string * ws);
  handler_secret : option string   (* [self.secret], set by [setSecret] *)
}.

(** [WslinkHandler.__init__] *)
Definition init_handler (protocol : option ServerProtocol) : WslinkHandler :=
  {| serverProtocol := protocol;
     functionMap := [];
     attachmentsReceived := [];
     attachmentsRecvQueue := [];
     connections := [];
     handler_secret := None |}.

Definition set_functionMap (m : list (string * (obj * proc))) (h : WslinkHandler) :=
  {| serverProtocol := serverProtocol h;
     functionMap := m;
     attachmentsReceived := attachmentsReceived h;
     attachmentsRecvQueue := attachmentsRecvQueue h;
     connections := connections h;
     handler_secret := handler_secret h |}.

Definition set_attachmentsReceived (m : list (value * bytes)) (h : WslinkHandler) :=
  {| serverProtocol := serverProtocol h;
     functionMap := functionMap h;
     attachmentsReceived := m;
     attachmentsRecvQueue := attachmentsRecvQueue h;
     connections := connections h;
     handler_secret := handler_secret h |}.

Definition set_attachmentsRecvQueue (q : list value) (h : WslinkHandler) :=
  {| serverProtocol := serverProtocol h;
     functionMap := functionMap h;
     attachmentsReceived := attachmentsReceived h;
     attachmentsRecvQueue := q;
     connections := connections h;
     handler_secret := handler_secret h |}.

Definition set_connections (c : list (string * ws)) (h : WslinkHandler) :=
  {| serverProtocol := serverProtocol h;
     functionMap := functionMap h;
     attachmentsReceived := attachmentsReceived h;
     attachmentsRecvQueue := attachmentsRecvQueue h;
     connections := c;
     handler_secret := handler_secret h |}.

Definition set_handler_secret (x : option string) (h : WslinkHandler) :=
  {| serverProtocol := serverProtocol h;
     functionMap := functionMap h;
     attachmentsReceived := attachmentsReceived h;
     attachmentsRecvQueue := attachmentsRecvQueue h;
     connections := connections h;
     handler_secret := x |}.

Record State := {
  handler : WslinkHandler;
  pm : PublishManager;
  trace : list event
}.

Definition M (A : Type) : Type := State -> result A * State.

Definition ret {A} (a : A) : M A := fun s => (Ok a, s).

Definition bind {A B} (c : M A) (k : A -> M B) : M B :=
  fun s => match c s with
           | (Ok a, s') => k a s'
           | (Raise e, s') => (Raise e, s')
           end.

Definition raise {A} (e : exn) : M A := fun s => (Raise e, s).

(** [try: c  except Exception as e: h e] *)
Definition try_except {A} (c : M A) (h : exn -> M A) : M A :=
  fun s => match c s with
           | (Ok a, s') => (Ok a, s')
           | (Raise e, s') => h e s'
           end.

Declare Scope monad_scope.
Delimit Scope monad_scope with monad.
Notation "x <- c ;; k" := (bind c (fun x => k))
  (at level 61, c at next level, right associativity) : monad_scope.
Notation "c ;; k" := (bind c (fun _ => k))
  (at level 61, right associativity) : monad_scope.
Open Scope monad_scope.

Definition get_handler : M WslinkHandler := fun s => (Ok (handler s), s).

Definition put_handler (h : WslinkHandler) : M unit :=
  fun s => (Ok tt, {| handler := h; pm := pm s; trace := trace s |}).

Definition emit (e : event) : M unit :=
  fun s => (Ok tt, {| handler := handler s; pm := pm s; trace := trace s ++ [e] |}).

Definition modify_handler (f : WslinkHandler -> WslinkHandler) : M unit :=
  fun s => (Ok tt, {| handler := f (handler s); pm := pm s; trace := trace s |}).

Definition get_pm : M PublishManager := fun s => (Ok (pm s), s).

Definition put_pm (p : PublishManager) : M unit :=
  fun s => (Ok tt, {| handler := handler s; pm := p; trace := trace s |}).

(** A call into the publish manager that changes it is also logged. *)
Definition pm_call (e : event) (f : PublishManager -> PublishManager) : M unit :=
  p <- get_pm ;; put_pm (f p) ;; emit e.

(** [for x in l: body x] *)
Fixpoint for_each {A} (l : list A) (body : A -> M unit) : M unit :=
  match l with
  | [] => ret tt
  | x :: r => body x ;; for_each r body
  end.

(** ** Dicts keyed by hashable values: [attachmentsReceived] *)

Fixpoint recv_get (m : list (value * bytes)) (k : value) : option bytes :=
  match m with
  | [] => None
  | (k', b) :: r => if key_eqb k' k then Some b else recv_get r k
  end.

Fixpoint recv_set (m : list (value * bytes)) (k : value) (b : bytes)
  : list (value * bytes) :=
  match m with
  | [] => [(k, b)]
  | (k', b') :: r =>
      if key_eqb k' k then (k', b) :: r else (k', b') :: recv_set r k b
  end.

Fixpoint recv_del (m : list (value * bytes)) (k : value) : list (value * bytes) :=
  match m with
  | [] => []
  | (k', b') :: r => if key_eqb k' k then r else (k', b') :: recv_del r k
  end.

(** ** [findAttachments] *)

(** The closure [findAttachments] of [onMessage], as a function of the
    object and of [self.attachmentsReceived]; it returns the object after
    the substitution and the map after the deletions.  The list and the
    dict are rewritten element by element, in order. *)
Fixpoint findAttachments (o : value) (received : list (value * bytes))
  : value * list (value * bytes) :=
  match o with
  | VStr s =>
      if is_placeholder s then
        match recv_get received (VStr s) with
        | Some attachment => (VBytes attachment, recv_del received (VStr s))
        | None => (o, received)
        end
      else (o, received)
  | VList l =>
      let fix items (l : list value) (received : list (value * bytes)) :=
        match l with
        | [] => ([], received)
        | v :: r =>
            let (v', received1) := findAttachments v received in
            let (r', received2) := items r received1 in
            (v' :: r', received2)
        end in
      let (l', received') := items l received in (VList l', received')
  | VDict d =>
      let fix items (d : pydict) (received : list (value * bytes)) :=
        match d with
        | [] => ([], received)
        | (k, v) :: r =>
            let (v', received1) := findAttachments v received in
            let (r', received2) := items r received1 in
            ((k, v') :: r', received2)
        end in
      let (d', received') := items d received in (VDict d', received')
  | _ => (o, received)
  end.

(** ** The handler *)

(** What the module takes from outside this file: [json.loads] ([None]
    when it raises [JSONDecodeError]) and the error codes of
    [wslink.publish]. *)
Record Env := {
  json_loads : string -> option value;
  AUTHENTICATION_ERROR : Z;
  METHOD_NOT_FOUND : Z;
  EXCEPTION_ERROR : Z;
  RESULT_SERIALIZE_ERROR : Z
}.

Inductive WSMessage : Type :=
| BINARY (data : bytes)
| TEXT (data : string).

Fixpoint ws_lookup (c : list (string * ws)) (client_id : string) : option ws :=
  match c with
  | [] => None
  | (k, w) :: r => if (k =? client_id)%string then Some w else ws_lookup r client_id
  end.

(** The list [websockets] of the two reply paths: the socket of
    [client_id] when one is given, every socket of the handler
    otherwise. *)
Definition websockets_for (client_id : option string) : M (list ws) :=
  h <- get_handler ;;
  match client_id with
  | Some c =>
      if negb (c =? "")%string then
        match ws_lookup (connections h) c with
        | Some w => ret [w]
        | None => raise KeyError
        end
      else ret (map snd (connections h))
  | None => ret (map snd (connections h))
  end.

(** The dict that [sendWrappedError] serializes. *)
Definition error_wrapper (rpcid : value) (code : Z) (message : string) (data : value)
  : value :=
  VDict [("wslink", VStr "1.0");
         ("id", rpcid);
         ("error",
          VDict ([("code", VInt code); ("message", VStr message)]
                 ++ (if truthy data then [("data", data)] else [])))].

Definition sendWrappedError (rpcid : value) (code : Z) (message : string)
  (data : value) (client_id : option string) : M unit :=
  let wrapper := error_wrapper rpcid code message data in
  match json_dumps wrapper with
  | None => raise TypeError
  | Some encMsg =>
      websockets <- websockets_for client_id ;;
      for_each websockets (fun w => emit (send_str w encMsg))
  end.

(** The dict that [sendWrappedMessage] serializes. *)
Definition result_wrapper (rpcid content : value) : value :=
  VDict [("wslink", VStr "1.0"); ("id", rpcid); ("result", content)].

Definition attachment_header (key : string) : value :=
  VDict [("wslink", VStr "1.0");
         ("method", VStr "wslink.binary.attachment");
         ("args", VList [VStr key])].

Fixpoint blob_of (attachments : list (string * bytes)) (key : string) : option bytes :=
  match attachments with
  | [] => None
  | (k, b) :: r => if (k =? key)%string then Some b else blob_of r key
  end.

(** The header and the binary frame of one key, on every socket. *)
Definition send_pair (attachments : list (string * bytes)) (key json_header : string)
  (websockets : list ws) : M unit :=
  for_each websockets (fun w =>
    emit (send_str w json_header) ;;
    match blob_of attachments key with
    | Some b => emit (send_bytes w b)
    | None => raise KeyError
    end).

(** The loop [for key in attachments] of [sendWrappedMessage]; the list
    [found_keys] is threaded through it. *)
Fixpoint send_attachments (attachments : list (string * bytes)) (keys : list string)
  (encMsg : string) (websockets : list ws) (found_keys : list string)
  : M (list string) :=
  match keys with
  | [] => ret found_keys
  | key :: rest =>
      if contains key encMsg then
        let found_keys := if negb (mem key found_keys)
                          then (found_keys ++ [key])%list else found_keys in
        pm_call (pm_registerAttachment key) (registerAttachment key) ;;
        match json_dumps (attachment_header key) with
        | None => raise TypeError
        | Some json_header =>
            send_pair attachments key json_header websockets ;;
            pm_call (pm_unregisterAttachment key) (unregisterAttachment key) ;;
            send_attachments attachments rest encMsg websockets found_keys
        end
      else send_attachments attachments rest encMsg websockets found_keys
  end.

Fixpoint fm_lookup (m : list (string * (obj * proc))) (k : string)
  : option (obj * proc) :=
  match m with
  | [] => None
  | (k', e) :: r => if (k' =? k)%string then Some e else fm_lookup r k
  end.

(** [methodName in self.functionMap] and [self.functionMap[methodName]]:
    the keys are URIs, so only a str can be found. *)
Definition fm_find (m : list (string * (obj * proc))) (methodName : value)
  : option (obj * proc) :=
  match methodName with
  | VStr k => fm_lookup m k
  | _ => None
  end.

(** The [data] of an [EXCEPTION_ERROR] reply. *)
Definition exception_data (methodName : value) (e : exn) : value :=
  VDict [("method", methodName);
         ("exception", VStr (repr_exn e));
         ("trace", VStr (format_exc e))].

(** [findAttachments(o)] run on [self.attachmentsReceived]. *)
Definition run_findAttachments (o : value) : M value :=
  h <- get_handler ;;
  let (o', received) := findAttachments o (attachmentsReceived h) in
  modify_handler (set_attachmentsReceived received) ;;
  ret o'.

(** The awaited call of [func] on the positional and keyword arguments,
    with [obj] already put in front of [args]. *)
Definition call (o : obj) (func : proc) (args : list value) (kwargs : pydict)
  : M value :=
  fun s =>
    let (r, p) := func o args kwargs (pm s) in
    (r, {| handler := handler s; pm := p; trace := trace s |}).

(** [self.attachmentsRecvQueue.pop(0)] *)
Definition pop_queue : M value :=
  h <- get_handler ;;
  match attachmentsRecvQueue h with
  | [] => raise IndexError
  | key :: rest => modify_handler (set_attachmentsRecvQueue rest) ;; ret key
  end.

(** [self.attachmentsReceived[key] = payload] *)
Definition store_received (key : value) (payload : bytes) : M unit :=
  if hashable key then
    h <- get_handler ;;
    modify_handler
      (set_attachmentsReceived (recv_set (attachmentsReceived h) key payload))
  else raise TypeError.

(** [self.attachmentsRecvQueue.append(k)] *)
Definition queue_append (k : value) : M unit :=
  h <- get_handler ;;
  modify_handler (set_attachmentsRecvQueue (attachmentsRecvQueue h ++ [k])%list).

(** [args] and [kwargs] of a request: the members of these names when
    they are a list and a dict, empty otherwise. *)
Definition request_args (d : pydict) : list value :=
  match dict_get d "args" with
  | Some (VList l) => l
  | _ => []
  end.

Definition request_kwargs (d : pydict) : pydict :=
  match dict_get d "kwargs" with
  | Some (VDict k) => k
  | _ => []
  end.

(** [rpcid.split(":")[0]] *)
Definition before_colon (id : string) : string := hd "" (split ":" id).

Section Handler.
Variable env : Env.

Definition sendWrappedMessage (rpcid content method : value)
  (client_id : option string) : M unit :=
  let wrapper := result_wrapper rpcid content in
  match json_dumps wrapper with
  | None =>
      sendWrappedError rpcid (RESULT_SERIALIZE_ERROR env)
        "Method result cannot be serialized" method client_id
  | Some encMsg =>
      websockets <- websockets_for client_id ;;
      (* Check if any attachments in the map go with this message *)
      p <- get_pm ;;
      let attachments := getAttachmentMap p in
      match attachments with
      | [] => ret tt
      | _ :: _ =>
          found_keys <- send_attachments attachments (map fst attachments)
                          encMsg websockets [] ;;
          pm_call (pm_freeAttachments found_keys) (freeAttachments found_keys)
      end ;;
      for_each websockets (fun w => emit (send_str w encMsg))
  end.

(** The test of the [wslink.hello] branch: [args] is not empty, [args[0]]
    is true, is a dict, has the key [secret], and the value under it
    equals [self.getServerProtocol().secret]; the conjuncts are
    evaluated from left to right, and the last one needs the protocol
    object. *)
Definition hello_test (args : list value) : M bool :=
  match args with
  | [] => ret false
  | a0 :: _ =>
      if negb (truthy a0) then ret false
      else match a0 with
           | VDict d =>
               match dict_get d "secret" with
               | None => ret false
               | Some given =>
                   h <- get_handler ;;
                   match serverProtocol h with
                   | None => raise AttributeError
                   | Some p => ret (str_eq given (secret p))
                   end
               end
           | _ => ret false
           end
  end.

Definition handleSystemMessage (rpcid methodName : value) (args : list value)
  (client_id : string) : M bool :=
  match rpcid with
  | VStr id =>
      if (before_colon id =? "system")%string then
        (if str_eq methodName "wslink.hello" then
           ok <- hello_test args ;;
           if ok then
             sendWrappedMessage rpcid
               (VDict [("clientID", VStr ("c" ++ client_id))])
               (VStr "") (Some client_id)
           else
             sendWrappedError rpcid (AUTHENTICATION_ERROR env)
               "Authentication failed" VNone (Some client_id)
         else
           sendWrappedError rpcid (METHOD_NOT_FOUND env)
             "Unknown system method called" VNone (Some client_id)) ;;
        ret true
      else ret false
  | VBytes _ => raise TypeError   (* [bytes.split] wants a bytes separator *)
  | _ => raise AttributeError    (* no [split] on the other values *)
  end.

(** The [try] block of [onMessage], entered once the method is found. *)
Definition invoke (rpcid methodName : value) (o : obj) (func : proc)
  (args : list value) (kwargs : pydict) (client_id : string) : M unit :=
  try_except
    ((* get any attachments *)
     args <- run_findAttachments (VList args) ;;
     kwargs <- run_findAttachments (VDict kwargs) ;;
     match args, kwargs with
     | VList args, VDict kwargs =>
         try_except
           (results <- call o func args kwargs ;;
            sendWrappedMessage rpcid results methodName (Some client_id))
           (fun e_inst =>
              sendWrappedError rpcid (EXCEPTION_ERROR env) "Exception raised"
                (exception_data methodName e_inst) (Some client_id))
     | _, _ => raise AttributeError   (* a list stays a list, a dict a dict *)
     end)
    (fun e =>
       sendWrappedError rpcid (EXCEPTION_ERROR env) "Exception raised"
         (exception_data methodName e) (Some client_id)).

(** [onMessage] from the check for system messages on. *)
Definition dispatch_request (rpcid methodName : value) (args : list value)
  (kwargs : pydict) (client_id : string) : M unit :=
  (* Check for system messages, like hello *)
  system <- handleSystemMessage rpcid methodName args client_id ;;
  if system then ret tt
  else if negb (hashable methodName) then raise TypeError
  else
    h <- get_handler ;;
    match fm_find (functionMap h) methodName with
    | None =>
        sendWrappedError rpcid (METHOD_NOT_FOUND env)
          "Unregistered method called" methodName (Some client_id)
    | Some (o, func) =>
        invoke rpcid methodName o func args kwargs client_id
    end.

(** The part of [onMessage] that follows [rpc = json.loads(payload)],
    for a dict. *)
Definition dispatch_dict (d : pydict) (client_id : string) : M unit :=
  if negb (dict_has d "id") then
    (* should be a binary attachment header *)
    match dict_get d "method" with
    | Some method =>
        if str_eq method "wslink.binary.attachment" then
          match dict_get d "args" with
          | Some (VList keys) => for_each keys queue_append
          | _ => ret tt
          end
        else ret tt
    | None => ret tt
    end
  else
    match dict_get d "wslink" with
    | None => raise KeyError
    | Some version =>
    match dict_get d "id" with
    | None => raise KeyError
    | Some rpcid =>
    match dict_get d "method" with
    | None => raise KeyError
    | Some methodName =>
        dispatch_request rpcid methodName (request_args d) (request_kwargs d)
          client_id
    end end end.

(** A decoded text that is not a dict fails on the test of [id] or on
    the first access that follows it. *)
Definition dispatch (rpc : value) (client_id : string) : M unit :=
  match rpc with
  | VDict d => dispatch_dict d client_id
  | VList l =>
      if existsb (key_eqb (VStr "id")) l then raise TypeError
      else raise AttributeError
  | VStr s =>
      if contains "id" s then raise TypeError else raise AttributeError
  | _ => raise TypeError
  end.

Definition onMessage (msg : WSMessage) (client_id : string) : M unit :=
  match msg with
  | BINARY payload =>
      (* assume all binary messages are attachments *)
      try_except
        (key <- pop_queue ;; store_received key payload)
        (fun _ => ret tt)
  | TEXT payload =>
      (* the payload of a text frame is a str: nothing to decode from bytes *)
      match json_loads env payload with
      | None => raise JSONDecodeError
      | Some rpc => dispatch rpc client_id
      end
  end.

Definition setSecret (newSecret : string) : M unit :=
  modify_handler (set_handler_secret (Some newSecret)).

End Handler.

(** ** The application and the idle-shutdown timer *)

(** Modelled from the spec: the timer facility [schedule_coroutine] of
    [wslink/__init__.py].  [schedule_coroutine delay f args] hands a task
    to the event loop and returns a handle; [cancel] on the handle stops a
    task that has not fired yet.  A task is known by its position in the
    list of the tasks handed over so far; the only callable scheduled by
    the code of this file is [_stop_server]. *)
Inductive task_status : Type := Pending | Cancelled | Fired.

Record task := { delay : Z; status : task_status }.

(** [app["state"]], the server configuration it holds, and the two things
    all handlers share: the publish manager and the transport. *)
Record App := {
  timeout : Z;                               (* server_config["timeout"] *)
  handlers : list (string * WslinkHandler);  (* server_config["ws"] *)
  shutdown_task : option nat;                (* state["shutdown_task"] *)
  tasks : list task;
  runner_cleaned : bool;                     (* runner.cleanup() was awaited *)
  running : option bool;                     (* the future [running] *)
  publishManager : PublishManager;
  transport : list event
}.

Definition set_shutdown_task (t : option nat) (a : App) : App :=
  {| timeout := timeout a; handlers := handlers a; shutdown_task := t;
     tasks := tasks a; runner_cleaned := runner_cleaned a; running := running a;
     publishManager := publishManager a; transport := transport a |}.

Definition set_tasks (l : list task) (a : App) : App :=
  {| timeout := timeout a; handlers := handlers a; shutdown_task := shutdown_task a;
     tasks := l; runner_cleaned := runner_cleaned a; running := running a;
     publishManager := publishManager a; transport := transport a |}.

Definition set_runner_cleaned (b : bool) (a : App) : App :=
  {| timeout := timeout a; handlers := handlers a; shutdown_task := shutdown_task a;
     tasks := tasks a; runner_cleaned := b; running := running a;
     publishManager := publishManager a; transport := transport a |}.

Definition set_running (r : option bool) (a : App) : App :=
  {| timeout := timeout a; handlers := handlers a; shutdown_task := shutdown_task a;
     tasks := tasks a; runner_cleaned := runner_cleaned a; running := r;
     publishManager := publishManager a; transport := transport a |}.

Fixpoint handler_lookup (l : list (string * WslinkHandler)) (route : string)
  : option WslinkHandler :=
  match l with
  | [] => None
  | (r, h) :: rest => if (r =? route)%string then Some h else handler_lookup rest route
  end.

Fixpoint handler_store (l : list (string * WslinkHandler)) (route : string)
  (h : WslinkHandler) : list (string * WslinkHandler) :=
  match l with
  | [] => []
  | (r, h') :: rest =>
      if (r =? route)%string then (r, h) :: rest
      else (r, h') :: handler_store rest route h
  end.

(** A method of the handler mounted on [route], run inside the
    application.  [handleWsRequest] is a bound method of a handler of the
    table, so the route is always found. *)
Definition on_handler {A} (route : string) (c : M A) (a : App) : result A * App :=
  match handler_lookup (handlers a) route with
  | None => (Raise KeyError, a)
  | Some h =>
      let (r, s) := c {| handler := h; pm := publishManager a; trace := transport a |} in
      (r, {| timeout := timeout a;
             handlers := handler_store (handlers a) route (handler s);
             shutdown_task := shutdown_task a;
             tasks := tasks a;
             runner_cleaned := runner_cleaned a;
             running := running a;
             publishManager := pm s;
             transport := trace s |})
  end.

Definition schedule_coroutine (d : Z) (a : App) : nat * App :=
  (List.length (tasks a), set_tasks (tasks a ++ [{| delay := d; status := Pending |}])%list a).

Fixpoint set_status (l : list task) (t : nat) (st : task_status) : list task :=
  match l, t with
  | [], _ => []
  | x :: r, O => {| delay := delay x; status := st |} :: r
  | x :: r, S t' => x :: set_status r t' st
  end.

Definition task_pending (a : App) (t : nat) : bool :=
  match nth_error (tasks a) t with
  | Some {| status := Pending |} => true
  | _ => false
  end.

(** [handle.cancel()] *)
Definition cancel (t : nat) (a : App) : App :=
  if task_pending a t then set_tasks (set_status (tasks a) t Cancelled) a else a.

Definition _schedule_shutdown (a : App) : App :=
  let (t, a') := schedule_coroutine (timeout a) a in
  set_shutdown_task (Some t) a'.

(** [aiohttp.WSCloseCode.GOING_AWAY] *)
Definition GOING_AWAY : Z := 1001.

Definition disconnectClients : M unit :=
  h <- get_handler ;;
  let keys := map fst (connections h) in
  for_each keys (fun client_id =>
    match ws_lookup (connections h) client_id with
    | Some w => emit (ws_close w GOING_AWAY "Server shutdown")
    | None => raise KeyError
    end).

(** The loop of [_stop_server] over the handlers of the table:
    [disconnectClients] of each, in order.  It writes to the transport
    only. *)
Fixpoint disconnect_all (hs : list (string * WslinkHandler)) (a : App)
  : result unit * App :=
  match hs with
  | [] => (Ok tt, a)
  | (route, h) :: rest =>
      let (r, s) := disconnectClients
                      {| handler := h; pm := publishManager a; trace := transport a |} in
      let a' := {| timeout := timeout a; handlers := handlers a;
                   shutdown_task := shutdown_task a; tasks := tasks a;
                   runner_cleaned := runner_cleaned a; running := running a;
                   publishManager := pm s; transport := trace s |} in
      match r with
      | Ok _ => disconnect_all rest a'
      | Raise e => (Raise e, a')
      end
  end.

Definition _stop_server (a : App) : result unit * App :=
  (* Disconnecting any connected clients of handler(s) *)
  match disconnect_all (handlers a) a with
  | (Raise e, a') => (Raise e, a')
  | (Ok _, a1) =>
      let a2 := set_runner_cleaned true a1 in
      (* resolve the future we awaited in the start method *)
      match running a2 with
      | Some _ => (Raise InvalidStateError, a2)
      | None => (Ok tt, set_running (Some true) a2)
      end
  end.

(** The event loop runs a task when its delay is over, unless the task
    was cancelled before. *)
Definition fire (t : nat) (a : App) : result unit * App :=
  if task_pending a t
  then _stop_server (set_tasks (set_status (tasks a) t Fired) a)
  else (Ok tt, a).

(** [_on_startup]: the first shutdown task. *)
Definition _on_startup (a : App) : App := _schedule_shutdown a.


(** [d[k] = v] on the connection table and on the function map. *)
Fixpoint assoc_set {V} (l : list (string * V)) (k : string) (v : V) : list (string * V) :=
  match l with
  | [] => [(k, v)]
  | (k', v') :: r =>
      if (k' =? k)%string then (k', v) :: r else (k', v') :: assoc_set r k v
  end.

(** [del d[k]], on a key that is there. *)
Fixpoint assoc_del {V} (l : list (string * V)) (k : string) : list (string * V) :=
  match l with
  | [] => []
  | (k', v') :: r =>
      if (k' =? k)%string then r else (k', v') :: assoc_del r k
  end.

(** [onConnect]: the function map is built from the URIs the protocol
    objects expose.  (The registration of the handler with the publish
    manager, which only matters for publishes, is not part of the
    state.) *)
Definition onConnect : M unit :=
  h <- get_handler ;;
  match serverProtocol h with
  | None => ret tt
  | Some p =>
      for_each (exposed p) (fun ue =>
        h <- get_handler ;;
        modify_handler (set_functionMap (assoc_set (functionMap h) (fst ue) (snd ue))))
  end.

Definition onClose : M unit := ret tt.

Section Server.
Variable env : Env.

(** [handleWsRequest] up to the read loop: the connection is entered in
    the table and a pending shutdown task is cancelled. *)
Definition handleWsRequest_open (route client_id : string) (current_ws : ws)
  (a : App) : result unit * App :=
  match on_handler route
          (h <- get_handler ;;
           modify_handler (set_connections (assoc_set (connections h) client_id current_ws)))
          a with
  | (Raise e, a') => (Raise e, a')
  | (Ok _, a1) =>
      let a2 := match shutdown_task a1 with
                | Some t => set_shutdown_task None (cancel t a1)
                | None => a1
                end in
      on_handler route onConnect a2
  end.

(** [async for msg in current_ws: await self.onMessage(msg, client_id)] *)
Fixpoint read_loop (route client_id : string) (msgs : list WSMessage) (a : App)
  : result unit * App :=
  match msgs with
  | [] => (Ok tt, a)
  | msg :: rest =>
      match on_handler route (onMessage env msg client_id) a with
      | (Ok _, a') => read_loop route client_id rest a'
      | (Raise e, a') => (Raise e, a')
      end
  end.

(** [handleWsRequest] after the read loop. *)
Definition handleWsRequest_close (route client_id : string) (a : App)
  : result unit * App :=
  match on_handler route
          (onClose ;;
           h <- get_handler ;;
           match ws_lookup (connections h) client_id with
           | None => raise KeyError
           | Some _ =>
               modify_handler (set_connections (assoc_del (connections h) client_id)) ;;
               h' <- get_handler ;;
               ret (connections h')
           end)
          a with
  | (Raise e, a') => (Raise e, a')
  | (Ok remaining, a1) =>
      match remaining with
      | [] => (Ok tt, _schedule_shutdown a1)
      | _ :: _ => (Ok tt, a1)
      end
  end.

(** One whole session: [msgs] are the frames the client sends before
    the websocket closes. *)
Definition handleWsRequest (route client_id : string) (current_ws : ws)
  (msgs : list WSMessage) (a : App) : result unit * App :=
  match handleWsRequest_open route client_id current_ws a with
  | (Raise e, a') => (Raise e, a')
  | (Ok _, a1) =>
      match read_loop route client_id msgs a1 with
      | (Raise e, a') => (Raise e, a')
      | (Ok _, a2) => handleWsRequest_close route client_id a2
      end
  end.

End Server.

(** ** Vocabulary of the specification *)

(** The text of a value that can be serialized. *)
Definition wire (v : value) : string :=
  match json_dumps v with Some s => s | None => "" end.

(** A reply to the request [rpcid]: a mapping that carries this [id] and
    exactly one of [result] and [error]. *)
Definition is_reply (rpcid : value) (w : value) : Prop :=
  exists d, w = VDict d /\ dict_get d "id" = Some rpcid /\
            xorb (dict_has d "result") (dict_has d "error") = true.

(** What precedes a reply on the socket [w] and in the log: the calls
    into the publish manager, attachment headers and binary frames. *)
Inductive attachment_event (w : ws) : event -> Prop :=
| ae_register key : attachment_event w (pm_registerAttachment key)
| ae_header key : attachment_event w (send_str w (wire (attachment_header key)))
| ae_blob b : attachment_event w (send_bytes w b)
| ae_unregister key : attachment_event w (pm_unregisterAttachment key)
| ae_free keys : attachment_event w (pm_freeAttachments keys).

(** The events of one found key on one socket. *)
Definition pair_events (p : PublishManager) (w : ws) (key : string) : list event :=
  [pm_registerAttachment key;
   send_str w (wire (attachment_header key));
   send_bytes w (match blob_of (getAttachmentMap p) key with
                 | Some b => b
                 | None => []
                 end);
   pm_unregisterAttachment key].

(** [found_keys]: the keys met, without repetition, in the order in which
    they were first met. *)
Fixpoint dedup (seen keys : list string) : list string :=
  match keys with
  | [] => seen
  | k :: r => dedup (if mem k seen then seen else (seen ++ [k])%list) r
  end.

(** The keys of the attachment map that occur in a text, in the order of
    the map. *)
Definition matched_keys (p : PublishManager) (encMsg : string) : list string :=
  filter (fun k => contains k encMsg) (map fst (attachmentMap p)).

(** The publish manager after the calls logged in a list of events. *)
Definition apply_event (p : PublishManager) (e : event) : PublishManager :=
  match e with
  | pm_registerAttachment k => registerAttachment k p
  | pm_unregisterAttachment k => unregisterAttachment k p
  | pm_freeAttachments ks => freeAttachments ks p
  | _ => p
  end.

Definition pm_after (p : PublishManager) (evs : list event) : PublishManager :=
  fold_left apply_event evs p.

(** The condition of the [wslink.hello] branch in the words of the
    specification: [args[0]] is a mapping whose [secret] is the secret of
    the server. *)
Definition hello_secret_matches (args : list value) (s : string) : Prop :=
  exists a rest, args = VDict a :: rest /\ dict_get a "secret" = Some (VStr s).

(** An id that has the system prefix. *)
Definition system_prefixed (id : string) : bool := prefix "system:" id.





(** The state after more events were logged. *)
Definition logged (evs : list event) (s : State) : State :=
  {| handler := handler s; pm := pm s; trace := trace s ++ evs |}.

(** What [sendWrappedMessage] logs for a text [encMsg] sent to the socket
    [w] when the publish manager is [p], and the publish manager it
    leaves. *)
Definition found_keys_of (p : PublishManager) (encMsg : string) : list string :=
  dedup [] (matched_keys p encMsg).

Definition reply_events (p : PublishManager) (w : ws) (encMsg : string) : list event :=
  (flat_map (pair_events p w) (matched_keys p encMsg)
   ++ match attachmentMap p with
      | [] => []
      | _ :: _ => [pm_freeAttachments (found_keys_of p encMsg)]
      end
   ++ [send_str w encMsg])%list.

Definition pm_after_reply (p : PublishManager) (encMsg : string) : PublishManager :=
  match attachmentMap p with
  | [] => p
  | _ :: _ => freeAttachments (found_keys_of p encMsg) p
  end.

(** In a list of events, [freeAttachments] is called only after the text
    [encMsg] was sent to the socket [w]. *)
Definition freed_after_send (evs : list event) (w : ws) (encMsg : string) : Prop :=
  forall pre keys post,
    evs = (pre ++ pm_freeAttachments keys :: post)%list ->
    In (send_str w encMsg) pre.

(** Every reference count of the publish manager is at least zero: they
    start at zero and move up and down in pairs. *)
Definition refcounts_nonneg (p : PublishManager) : Prop :=
  Forall (fun e => 0 <= refcount (snd e)) (attachmentMap p).

(** The result of a successful [wslink.hello]. *)
Definition hello_result (c : string) : value :=
  VDict [("clientID", VStr ("c" ++ c))].

(** A string without a colon. *)
Fixpoint no_colon (p : string) : bool :=
  match p with
  | EmptyString => true
  | String a p' => negb (Ascii.eqb a ":") && no_colon p'
  end.


(** Between the logs [old] and [new], exactly one reply to [rpcid] was
    sent to the socket [w]: the log grew by attachment events and then by
    one text, the serialization of a reply to [rpcid]. *)
Definition one_reply (rpcid : value) (w : ws) (old new : list event) : Prop :=
  exists pre encMsg wrapper,
    new = (old ++ pre ++ [send_str w encMsg])%list /\
    json_dumps wrapper = Some encMsg /\
    is_reply rpcid wrapper /\
    Forall (attachment_event w) pre.

(** The error reply without [data], and the one that carries it. *)
Definition plain_error (rpcid : value) (code : Z) (message : string) : value :=
  VDict [("wslink", VStr "1.0");
         ("id", rpcid);
         ("error", VDict [("code", VInt code); ("message", VStr message)])].

Definition error_with_data (rpcid : value) (code : Z) (message : string)
  (data : value) : value :=
  VDict [("wslink", VStr "1.0");
         ("id", rpcid);
         ("error", VDict [("code", VInt code); ("message", VStr message);
                          ("data", data)])].


(** The sockets that [disconnectClients] closes: for every client id of
    the table, the socket the table gives for it. *)
Definition close_events (h : WslinkHandler) : list event :=
  flat_map (fun client_id =>
              match ws_lookup (connections h) client_id with
              | Some w => [ws_close w GOING_AWAY "Server shutdown"]
              | None => []
              end)
           (map fst (connections h)).

(** The position of the first occurrence of [key] in [text]. *)
Fixpoint first_index (key text : string) : option nat :=
  if prefix key text then Some O
  else match text with
       | EmptyString => None
       | String _ r => option_map S (first_index key r)
       end.

(** ** A server for the examples *)

(** A decoder that knows the texts of the listed values and rejects every
    other text. *)
Fixpoint loads_table (t : list value) (s : string) : option value :=
  match t with
  | [] => None
  | v :: r => if (wire v =? s)%string then Some v else loads_table r s
  end.

Definition sample_env (t : list value) : Env :=
  {| json_loads := loads_table t;
     AUTHENTICATION_ERROR := -32000;
     METHOD_NOT_FOUND := -32601;
     EXCEPTION_ERROR := -32001;
     RESULT_SERIALIZE_ERROR := -32002 |}.

Definition sample_client : string := "0123456789abcdef0123456789abcdef".

(** A method that stores its first argument as an attachment and returns
    the placeholder. *)
Definition echo_blob : proc :=
  fun _ args _ p =>
    match args with
    | VBytes b :: _ => let (key, p') := addAttachment b p in (Ok (VStr key), p')
    | a :: _ => (Ok a, p)
    | [] => (Raise (UserException "IndexError()" "Traceback"), p)
    end.

Definition sample_protocol : ServerProtocol :=
  {| secret := "S"; exposed := [("echo.blob", (0%nat, echo_blob))] |}.

Definition sample_handler : WslinkHandler :=
  set_connections [(sample_client, 1%nat)]
    (set_functionMap (exposed sample_protocol)
       (init_handler (Some sample_protocol))).

Definition empty_pm : PublishManager := {| attachmentMap := []; attachmentId := 0 |}.

Definition sample_state : State :=
  {| handler := sample_handler; pm := empty_pm; trace := [] |}.

Definition request (id method : value) (args : list value) : pydict :=
  [("wslink", VStr "1.0"); ("id", id); ("method", method); ("args", VList args)].

Definition hello_request (s : string) : pydict :=
  request (VStr "system:0") (VStr "wslink.hello") [VDict [("secret", VStr s)]].

Definition echo_request : pydict :=
  request (VStr "rpc:2") (VStr "echo.blob") [VStr "wslink_bin7"].

Definition unknown_request (id method : string) : pydict :=
  request (VStr id) (VStr method) [].





(** An attachment header whose key is a list. *)
Definition list_key_header : pydict :=
  [("wslink", VStr "1.0"); ("method", VStr "wslink.binary.attachment");
   ("args", VList [VList []])].


(** A publish manager that holds two blobs. *)
Definition two_blobs : PublishManager :=
  {| attachmentMap :=
       [("wslink_bin0", {| blob := [Byte.x00]; refcount := 0 |});
        ("wslink_bin1", {| blob := [Byte.x01]; refcount := 0 |})];
     attachmentId := 2 |}.

Definition two_blobs_state : State :=
  {| handler := sample_handler; pm := two_blobs; trace := [] |}.

Definition two_keys : value := VList [VStr "wslink_bin1"; VStr "wslink_bin0"].

(** An application with one route, one connected client and the first
    shutdown task pending. *)
Definition sample_app : App :=
  {| timeout := 300;
     handlers := [("ws", sample_handler)];
     shutdown_task := Some 0%nat;
     tasks := [{| delay := 300; status := Pending |}];
     runner_cleaned := false;
     running := None;
     publishManager := empty_pm;
     transport := [] |}.


(** ** Routes *)

(** [_fix_path] *)
Definition _fix_path (path : string) : string :=
  if prefix "/" path then path else "/" ++ path.






(** ** What a message leaves alone *)

(** The parts of the handler that no message changes. *)
Definition same_frame (s s' : State) : Prop :=
  serverProtocol (handler s') = serverProtocol (handler s) /\
  functionMap (handler s') = functionMap (handler s) /\
  connections (handler s') = connections (handler s) /\
  handler_secret (handler s') = handler_secret (handler s).

(** An event that closes no socket and writes only to the sockets that
    [ok] accepts. *)
Definition frames_to (ok : ws -> Prop) (e : event) : Prop :=
  match e with
  | send_str w _ | send_bytes w _ => ok w
  | ws_close _ _ _ => False
  | _ => True
  end.

(** A computation that, run with the connection table [T], keeps the
    frame and only adds events that satisfy [P] to the log. *)
Definition keeps {A} (T : list (string * ws)) (P : event -> Prop) (c : M A) : Prop :=
  forall s r s',
    connections (handler s) = T -> c s = (r, s') ->
    same_frame s s' /\
    exists evs, trace s' = (trace s ++ evs)%list /\ Forall P evs.

(** The sockets that a reply path chooses in the table [T] are accepted
    by [ok]. *)
Definition sockets_ok (T : list (string * ws)) (ok : ws -> Prop)
  (client_id : option string) : Prop :=
  forall s wss s',
    connections (handler s) = T ->
    websockets_for client_id s = (Ok wss, s') -> Forall ok wss.

(** ** Sequences of frames *)

(** The keys that a message without [id] announces: the elements of
    [args] when the method is that of an attachment header and [args] is
    a list, nothing otherwise. *)
Definition header_keys (d : pydict) : list value :=
  match dict_get d "method" with
  | Some method =>
      if str_eq method "wslink.binary.attachment" then
        match dict_get d "args" with
        | Some (VList keys) => keys
        | _ => []
        end
      else []
  | None => []
  end.

(** The frames of a list handed to [onMessage] one after the other, as
    the read loop does while none raises. *)
Definition run_messages (env : Env) (msgs : list WSMessage) (client_id : string)
  : M unit :=
  for_each msgs (fun msg => onMessage env msg client_id).

(** The frames that the events of a log put on the socket [w], as the
    peer reads them. *)
Fixpoint frames_on (w : ws) (evs : list event) : list WSMessage :=
  match evs with
  | [] => []
  | send_str w' text :: r =>
      if Nat.eqb w' w then TEXT text :: frames_on w r else frames_on w r
  | send_bytes w' b :: r =>
      if Nat.eqb w' w then BINARY b :: frames_on w r else frames_on w r
  | _ :: r => frames_on w r
  end.

(** The header and the binary frame of each key of a list, as frames. *)
Definition pair_frames (p : PublishManager) (keys : list string) : list WSMessage :=
  flat_map (fun key =>
              [TEXT (wire (attachment_header key));
               BINARY (match blob_of (getAttachmentMap p) key with
                       | Some b => b
                       | None => []
                       end)]) keys.

(** The arguments of a method after the substitution of the attachments:
    [findAttachments] on [args], then on [kwargs]. *)
Definition substitute_args (args : list value) (kwargs : pydict)
  (received : list (value * bytes)) : list value * pydict * list (value * bytes) :=
  let (a, received1) := findAttachments (VList args) received in
  let (k, received2) := findAttachments (VDict kwargs) received1 in
  (match a with VList l => l | _ => [] end,
   match k with VDict d => d | _ => [] end,
   received2).

(** ** Broadcasts *)

(** The events of one found key when the text goes to the sockets [wss]:
    the header and the binary frame on each socket in turn, between the
    two calls that move the reference count. *)
Definition broadcast_pair (p : PublishManager) (wss : list ws) (key : string)
  : list event :=
  (pm_registerAttachment key
   :: flat_map (fun w =>
                  [send_str w (wire (attachment_header key));
                   send_bytes w (match blob_of (getAttachmentMap p) key with
                                 | Some b => b
                                 | None => []
                                 end)]) wss
   ++ [pm_unregisterAttachment key])%list.

(** What [sendWrappedMessage] logs for a text sent to the sockets
    [wss]. *)
Definition broadcast_events (p : PublishManager) (wss : list ws) (encMsg : string)
  : list event :=
  (flat_map (broadcast_pair p wss) (matched_keys p encMsg)
   ++ match attachmentMap p with
      | [] => []
      | _ :: _ => [pm_freeAttachments (found_keys_of p encMsg)]
      end
   ++ map (fun w => send_str w encMsg) wss)%list.

(** A client id that asks for a broadcast: none, or the empty string. *)
Definition to_all (client_id : option string) : Prop :=
  client_id = None \/ client_id = Some "".

(** ** The life of the application *)

(** The close events of all the handlers of the table. *)
Definition all_close_events (a : App) : list event :=
  flat_map (fun rh => close_events (snd rh)) (handlers a).








(** ** More examples *)

(** A header that announces two attachments. *)
Definition two_key_header : pydict :=
  [("wslink", VStr "1.0"); ("method", VStr "wslink.binary.attachment");
   ("args", VList [VStr "wslink_bin0"; VStr "wslink_bin1"])].

(** The sample handler after this header. *)
Definition queued_state : State :=
  {| handler := set_attachmentsRecvQueue [VStr "wslink_bin0"; VStr "wslink_bin1"]
                  sample_handler;
     pm := empty_pm; trace := [] |}.

(** The sample handler with one attachment received. *)
Definition blob_received_state : State :=
  {| handler := set_attachmentsReceived [(VStr "wslink_bin7", [Byte.x07])]
                  sample_handler;
     pm := empty_pm; trace := [] |}.

(** A handler with two clients, and a publish manager that holds two
    blobs. *)
Definition two_clients_state : State :=
  {| handler := set_connections [(sample_client, 1%nat); ("fedcba9876543210", 2%nat)]
                  sample_handler;
     pm := two_blobs; trace := [] |}.

(** An application as [create_wslink_server] leaves it: one route, no
    client, no task. *)
Definition fresh_app : App :=
  {| timeout := 300;
     handlers := [("ws", init_handler (Some sample_protocol))];
     shutdown_task := None;
     tasks := [];
     runner_cleaned := false;
     running := None;
     publishManager := empty_pm;
     transport := [] |}.


(** * Proofs *)

Unset Implicit Arguments.

(** ** Serialization *)

Lemma serializable_dumps (v : value) :
  serializable v = true -> exists s, json_dumps v = Some s.
Proof.
  induction v using value_rect'; simpl; intros Hs; try discriminate; eauto.
  - destruct b; eauto.
  - match goal with
    | |- exists s, match ?items l with _ => _ end = Some s =>
        assert (Hitems : exists ss, items l = Some ss)
    end.
    { induction H as [|x r Hx Hr IH]; simpl in *; eauto.
      apply andb_prop in Hs as [Hs1 Hs2].
      destruct (Hx Hs1) as [sx ->]. destruct (IH Hs2) as [sr ->]. eauto. }
    destruct Hitems as [ss ->]. eauto.
  - match goal with
    | |- exists s, match ?items d with _ => _ end = Some s =>
        assert (Hitems : exists ss, items d = Some ss)
    end.
    { induction H as [|[k x] r Hx Hr IH]; simpl in *; eauto.
      apply andb_prop in Hs as [Hs1 Hs2].
      destruct (Hx Hs1) as [sx ->]. destruct (IH Hs2) as [sr ->]. eauto. }
    destruct Hitems as [ss ->]. eauto.
Qed.

Lemma dumps_wire (v : value) :
  serializable v = true -> json_dumps v = Some (wire v).
Proof.
  intros H. destruct (serializable_dumps v H) as [s Hs].
  unfold wire. rewrite Hs. reflexivity.
Qed.

Lemma error_wrapper_serializable rpcid code message data :
  serializable rpcid = true -> serializable data = true ->
  serializable (error_wrapper rpcid code message data) = true.
Proof.
  intros H1 H2. unfold error_wrapper. simpl. rewrite H1. simpl.
  destruct (truthy data); simpl; [rewrite H2|]; reflexivity.
Qed.

Lemma header_dumps key :
  json_dumps (attachment_header key) = Some (wire (attachment_header key)).
Proof. apply dumps_wire. reflexivity. Qed.

(** ** The two reply paths *)

Lemma for_each_one {A} (x : A) (body : A -> M unit) (s : State) :
  for_each [x] body s = body x s.
Proof.
  simpl. unfold bind. destruct (body x s) as [[[]|e] s']; reflexivity.
Qed.

Lemma logged_nil s : logged [] s = s.
Proof. destruct s. unfold logged. simpl. rewrite app_nil_r. reflexivity. Qed.

Lemma logged_app evs evs' s : logged evs' (logged evs s) = logged (evs ++ evs') s.
Proof. unfold logged. simpl. rewrite app_assoc. reflexivity. Qed.

Lemma websockets_for_client c w s :
  c <> "" -> ws_lookup (connections (handler s)) c = Some w ->
  websockets_for (Some c) s = (Ok [w], s).
Proof.
  intros Hc Hw. unfold websockets_for, bind, get_handler.
  destruct (String.eqb_spec c ""); [contradiction|]. simpl. rewrite Hw. reflexivity.
Qed.

Lemma sendWrappedError_run rpcid code message data c w s :
  serializable rpcid = true -> serializable data = true ->
  c <> "" -> ws_lookup (connections (handler s)) c = Some w ->
  sendWrappedError rpcid code message data (Some c) s =
    (Ok tt, logged [send_str w (wire (error_wrapper rpcid code message data))] s).
Proof.
  intros H1 H2 Hc Hw. unfold sendWrappedError.
  rewrite (dumps_wire _ (@error_wrapper_serializable rpcid code message data H1 H2)).
  unfold bind. rewrite (@websockets_for_client c w s Hc Hw).
  rewrite for_each_one. reflexivity.
Qed.

Lemma update_refcount_pred_succ m key :
  update_refcount Z.pred (update_refcount Z.succ m key) key = m.
Proof.
  induction m as [|[k a] r IH]; simpl; [reflexivity|].
  destruct (String.eqb_spec k key) as [->|Hne]; simpl.
  - rewrite String.eqb_refl. destruct a as [b c]. simpl.
    rewrite Z.pred_succ. reflexivity.
  - destruct (String.eqb_spec k key); [contradiction|]. rewrite IH. reflexivity.
Qed.

Lemma unregister_register key p :
  unregisterAttachment key (registerAttachment key p) = p.
Proof.
  destruct p as [m n]. unfold unregisterAttachment, registerAttachment. simpl.
  rewrite update_refcount_pred_succ. reflexivity.
Qed.

Lemma blob_of_snapshot p key :
  In key (map fst (attachmentMap p)) ->
  exists b, blob_of (getAttachmentMap p) key = Some b.
Proof.
  unfold getAttachmentMap. induction (attachmentMap p) as [|[k a] r IH]; simpl.
  - intros [].
  - intros [->|Hin].
    + rewrite String.eqb_refl. eauto.
    + destruct (k =? key)%string; eauto.
Qed.

Lemma dedup_step seen k r :
  dedup (if negb (mem k seen) then (seen ++ [k])%list else seen) r =
  dedup seen (k :: r).
Proof. simpl. destruct (mem k seen); reflexivity. Qed.

Lemma send_attachments_cons attachments key rest encMsg websockets found :
  send_attachments attachments (key :: rest) encMsg websockets found =
  if contains key encMsg then
    let found' := if negb (mem key found) then (found ++ [key])%list else found in
    pm_call (pm_registerAttachment key) (registerAttachment key) ;;
    match json_dumps (attachment_header key) with
    | None => raise TypeError
    | Some json_header =>
        send_pair attachments key json_header websockets ;;
        pm_call (pm_unregisterAttachment key) (unregisterAttachment key) ;;
        send_attachments attachments rest encMsg websockets found'
    end
  else send_attachments attachments rest encMsg websockets found.
Proof. reflexivity. Qed.

(** The loop over the keys of the map, for one socket: every key that
    occurs in the text gives its four events, and the publish manager is
    back to where it was after each key. *)
Lemma send_attachments_run encMsg w : forall keys found s,
  (forall k, In k keys -> In k (map fst (attachmentMap (pm s)))) ->
  send_attachments (getAttachmentMap (pm s)) keys encMsg [w] found s =
    (Ok (dedup found (filter (fun k => contains k encMsg) keys)),
     logged (flat_map (pair_events (pm s) w)
               (filter (fun k => contains k encMsg) keys)) s).
Proof.
  induction keys as [|key rest IH]; intros found s Hin.
  - simpl. rewrite logged_nil. reflexivity.
  - rewrite send_attachments_cons. simpl filter.
    destruct (contains key encMsg) eqn:Hc.
    + cbv zeta. destruct (blob_of_snapshot (pm s) key (Hin key (or_introl eq_refl)))
        as [b Hb].
      rewrite header_dumps.
      set (s1 := logged (pair_events (pm s) w key) s).
      assert (Hp1 : pm s1 = pm s) by reflexivity.
      assert (Hstep :
        (pm_call (pm_registerAttachment key) (registerAttachment key) ;;
         send_pair (getAttachmentMap (pm s)) key (wire (attachment_header key)) [w] ;;
         pm_call (pm_unregisterAttachment key) (unregisterAttachment key) ;;
         send_attachments (getAttachmentMap (pm s)) rest encMsg [w]
           (if negb (mem key found) then (found ++ [key])%list else found)) s =
        send_attachments (getAttachmentMap (pm s1)) rest encMsg [w]
           (if negb (mem key found) then (found ++ [key])%list else found) s1).
      { unfold bind, pm_call, send_pair, get_pm, put_pm, emit, bind. simpl.
        rewrite Hb. simpl.
        rewrite unregister_register.
        unfold s1, logged, pair_events. simpl. rewrite Hb.
        repeat rewrite <- app_assoc. reflexivity. }
      rewrite Hstep. rewrite IH.
      * rewrite dedup_step. simpl flat_map. unfold s1.
        rewrite logged_app. reflexivity.
      * intros k Hk. rewrite Hp1. apply Hin. right. exact Hk.
    + apply IH. intros k Hk. apply Hin. right. exact Hk.
Qed.

Lemma snapshot_keys p : map fst (getAttachmentMap p) = map fst (attachmentMap p).
Proof.
  unfold getAttachmentMap. rewrite map_map. reflexivity.
Qed.

Lemma match_nonempty {A B} (l : list A) (x y : B) :
  l <> [] -> match l with [] => x | _ :: _ => y end = y.
Proof. destruct l; [contradiction|reflexivity]. Qed.

Lemma snapshot_nonempty p : attachmentMap p <> [] -> getAttachmentMap p <> [].
Proof.
  unfold getAttachmentMap. destruct (attachmentMap p); [contradiction|discriminate].
Qed.

(** A serializable result sent to one connected client. *)
Lemma sendWrappedMessage_run env rpcid content method c w s encMsg :
  json_dumps (result_wrapper rpcid content) = Some encMsg ->
  c <> "" -> ws_lookup (connections (handler s)) c = Some w ->
  sendWrappedMessage env rpcid content method (Some c) s =
    (Ok tt, {| handler := handler s;
               pm := pm_after_reply (pm s) encMsg;
               trace := trace s ++ reply_events (pm s) w encMsg |}).
Proof.
  intros Hd Hc Hw. unfold sendWrappedMessage. rewrite Hd.
  unfold bind at 1. rewrite (@websockets_for_client c w s Hc Hw).
  unfold bind at 1. unfold get_pm at 1.
  unfold reply_events, pm_after_reply, found_keys_of, matched_keys.
  destruct (attachmentMap (pm s)) as [|e r] eqn:Hm.
  - unfold getAttachmentMap. rewrite Hm. unfold bind, ret, emit. simpl.
    destruct s; reflexivity.
  - assert (Hne : attachmentMap (pm s) <> []) by (rewrite Hm; discriminate).
    rewrite <- Hm. clear Hm e r.
    rewrite (@match_nonempty _ _ _ _ _ (@snapshot_nonempty (pm s) Hne)).
    unfold bind at 1. unfold bind at 1.
    rewrite snapshot_keys.
    rewrite send_attachments_run by (intros k Hk; exact Hk).
    cbv [pm_call bind get_pm put_pm emit logged ret for_each]. simpl.
    repeat rewrite <- app_assoc. reflexivity.
Qed.

(** ** The send protocol of attachments *)

Lemma mem_In k l : mem k l = true <-> In k l.
Proof.
  unfold mem. rewrite existsb_exists. split.
  - intros [x [Hx He]]. apply String.eqb_eq in He. subst. exact Hx.
  - intros H. exists k. split; [exact H|apply String.eqb_refl].
Qed.

Lemma dedup_spec keys : forall seen,
  NoDup seen ->
  NoDup (dedup seen keys) /\
  (forall k, In k (dedup seen keys) <-> In k seen \/ In k keys).
Proof.
  induction keys as [|x r IH]; intros seen Hnd; simpl.
  - split; [exact Hnd|]. intros k. tauto.
  - destruct (mem x seen) eqn:Hm.
    + destruct (IH seen Hnd) as [H1 H2]. split; [exact H1|].
      intros k. rewrite H2. apply mem_In in Hm.
      split; [tauto|]. intros [H|[->|H]]; tauto.
    + assert (Hnd' : NoDup (seen ++ [x])).
      { apply NoDup_app; [exact Hnd|repeat constructor; intros []|].
        intros a Ha [<-|[]]. apply mem_In in Ha. congruence. }
      destruct (IH _ Hnd') as [H1 H2]. split; [exact H1|].
      intros k. rewrite H2, in_app_iff. simpl. tauto.
Qed.

Lemma pm_after_app p evs evs' :
  pm_after p (evs ++ evs') = pm_after (pm_after p evs) evs'.
Proof. unfold pm_after. apply fold_left_app. Qed.

Lemma pm_after_pairs p0 w ks : forall p,
  pm_after p (flat_map (pair_events p0 w) ks) = p.
Proof.
  induction ks as [|k r IH]; intros p; [reflexivity|].
  change (flat_map (pair_events p0 w) (k :: r))
    with (pair_events p0 w k ++ flat_map (pair_events p0 w) r)%list.
  rewrite pm_after_app, IH.
  unfold pair_events, pm_after. simpl. apply unregister_register.
Qed.

Lemma refcount_of_update f m key :
  refcount_of (update_refcount f m key) key = option_map f (refcount_of m key).
Proof.
  induction m as [|[k a] r IH]; simpl; [reflexivity|].
  destruct (String.eqb_spec k key) as [->|Hne]; simpl.
  - rewrite String.eqb_refl. reflexivity.
  - destruct (String.eqb_spec k key); [contradiction|]. exact IH.
Qed.

Lemma refcount_of_key p key :
  refcounts_nonneg p -> In key (map fst (attachmentMap p)) ->
  exists c, refcount_of (attachmentMap p) key = Some c /\ 0 <= c.
Proof.
  unfold refcounts_nonneg. induction (attachmentMap p) as [|[k a] r IH]; simpl.
  - intros _ [].
  - intros Hall Hin. inversion Hall as [|? ? Ha Hr]; subst. simpl in Ha.
    destruct (String.eqb_spec k key) as [->|Hne]; [eauto|].
    destruct Hin as [->|Hin]; [contradiction|]. apply IH; assumption.
Qed.

(** C2 (amended): a result that serializes to [encMsg], sent to one
    connected client.  For each key of the publish attachment map that
    occurs in the text, in the order of the map, the log shows the
    reference count going up, the attachment header naming that single
    key, the binary frame of the key and the reference count going down;
    while the two frames of a key are sent its count is positive.
    [freeAttachments] is then called, when the map is not empty, on the
    keys found (without repetition), and the JSON text is sent last:
    after [freeAttachments], not before it. *)
Theorem C2_attachments_precede_reply env rpcid content method c w s encMsg :
  json_dumps (result_wrapper rpcid content) = Some encMsg ->
  c <> "" ->
  ws_lookup (connections (handler s)) c = Some w ->
  refcounts_nonneg (pm s) ->
  let out := sendWrappedMessage env rpcid content method (Some c) s in
  let keys := matched_keys (pm s) encMsg in
  let found := found_keys_of (pm s) encMsg in
  fst out = Ok tt /\
  trace (snd out) =
    (trace s
     ++ flat_map (pair_events (pm s) w) keys
     ++ match attachmentMap (pm s) with
        | [] => []
        | _ :: _ => [pm_freeAttachments found]
        end
     ++ [send_str w encMsg])%list /\
  pm (snd out) = pm_after_reply (pm s) encMsg /\
  (NoDup found /\ forall k, In k found <-> In k keys) /\
  (forall ks1 k ks2,
     keys = (ks1 ++ k :: ks2)%list ->
     exists n,
       refcount_of
         (attachmentMap
            (pm_after (pm s)
               (flat_map (pair_events (pm s) w) ks1 ++ [pm_registerAttachment k])))
         k = Some n /\ 0 < n).
Proof.
  intros Hd Hc Hw Hnn out keys found. subst out.
  rewrite (sendWrappedMessage_run env rpcid content method c w s encMsg Hd Hc Hw).
  simpl. repeat split.
  - apply (dedup_spec keys []). constructor.
  - intros H. apply (dedup_spec keys [] (NoDup_nil _)) in H.
    destruct H as [[]|H]. exact H.
  - intros H. apply (dedup_spec keys [] (NoDup_nil _)). right. exact H.
  - intros ks1 k ks2 Hk.
    rewrite pm_after_app, pm_after_pairs. unfold pm_after. simpl.
    rewrite refcount_of_update.
    assert (Hin : In k (map fst (attachmentMap (pm s)))).
    { assert (Hk' : In k keys) by (rewrite Hk; apply in_elt).
      unfold keys, matched_keys in Hk'. apply filter_In in Hk'. tauto. }
    destruct (refcount_of_key (pm s) k Hnn Hin) as [n [-> Hn]].
    exists (Z.succ n). split; [reflexivity|lia].
Qed.

(** ** System messages *)

Lemma split_nonempty sep s : split sep s <> [].
Proof.
  destruct s as [|c r]; simpl; [discriminate|].
  destruct (Ascii.eqb c sep); [discriminate|].
  destruct (split sep r); discriminate.
Qed.

Lemma before_colon_cons c r :
  before_colon (String c r) =
  if Ascii.eqb c ":" then "" else String c (before_colon r).
Proof.
  unfold before_colon. simpl. destruct (Ascii.eqb c ":"); [reflexivity|].
  destruct (split ":" r) eqn:H; [|reflexivity].
  exfalso. exact (split_nonempty _ _ H).
Qed.

Lemma prefix_cons a p b s :
  prefix (String a p) (String b s) = true <-> a = b /\ prefix p s = true.
Proof.
  simpl. destruct (ascii_dec a b) as [->|Hne]; split;
    try tauto; try discriminate.
Qed.

(** The part of an id before its first colon is [p] exactly when the id
    is [p] or starts with [p] and a colon. *)
Lemma before_colon_is p : no_colon p = true ->
  forall s, before_colon s = p <-> s = p \/ prefix (p ++ ":") s = true.
Proof.
  induction p as [|a p IH]; intros Hp s.
  - destruct s as [|c r].
    + split; [left|]; reflexivity.
    + rewrite before_colon_cons. simpl "++".
      rewrite prefix_cons.
      destruct (Ascii.eqb_spec c ":") as [->|Hne].
      * split; [intros _; right; split; [reflexivity|]|reflexivity].
        destruct r; reflexivity.
      * split; [discriminate|]. intros [H|[H _]]; [discriminate|congruence].
  - simpl in Hp. apply andb_prop in Hp as [Ha Hp].
    apply negb_true_iff in Ha. apply Ascii.eqb_neq in Ha.
    destruct s as [|c r].
    + split; [discriminate|]. intros [H|H]; discriminate.
    + rewrite before_colon_cons. simpl "++". rewrite prefix_cons.
      destruct (Ascii.eqb_spec c ":") as [->|Hne].
      * split; [discriminate|]. intros [H|[H _]]; congruence.
      * specialize (IH Hp r). split.
        -- intros H. injection H as -> H. apply IH in H.
           destruct H as [->|H]; [left; reflexivity|right; tauto].
        -- intros [H|[-> H]].
           ++ injection H as -> ->. f_equal. apply IH. left. reflexivity.
           ++ f_equal. apply IH. right. exact H.
Qed.

Lemma system_id_iff id :
  (before_colon id =? "system")%string = true <->
  id = "system" \/ system_prefixed id = true.
Proof.
  rewrite String.eqb_eq. unfold system_prefixed.
  apply (before_colon_is "system" eq_refl).
Qed.

Lemma dict_has_get d k v : dict_get d k = Some v -> dict_has d k = true.
Proof. unfold dict_has. intros ->. reflexivity. Qed.

Lemma str_eq_true v s : str_eq v s = true <-> v = VStr s.
Proof.
  destruct v; simpl; try (split; [discriminate|discriminate]).
  rewrite String.eqb_eq. split; [intros ->; reflexivity|congruence].
Qed.

(** The test of the hello branch decides the condition of the
    specification. *)
Lemma hello_test_run args p s :
  serverProtocol (handler s) = Some p ->
  exists b, hello_test args s = (Ok b, s) /\
            (b = true <-> hello_secret_matches args (secret p)).
Proof.
  intros Hp. unfold hello_secret_matches.
  destruct args as [|a0 rest].
  { exists false. split; [reflexivity|].
    split; [discriminate|intros [a [r [H _]]]; discriminate]. }
  unfold hello_test.
  destruct (truthy a0) eqn:Ht.
  2:{ exists false. split; [reflexivity|].
      split; [discriminate|]. intros [a [r [H Hs]]].
      injection H as -> _. destruct a; [discriminate|discriminate]. }
  simpl negb. cbv iota.
  destruct a0 as [| | | | | |a];
    try (exists false; split; [reflexivity|];
         split; [discriminate|intros [a' [r [H _]]]; discriminate]).
  destruct (dict_get a "secret") as [given|] eqn:Hg.
  2:{ exists false. split; [reflexivity|].
      split; [discriminate|]. intros [a' [r [H Hs]]].
      injection H as -> _. congruence. }
  exists (str_eq given (secret p)). cbv beta iota delta [bind get_handler negb].
  rewrite Hp.
  split; [reflexivity|]. rewrite str_eq_true. split.
  - intros ->. eauto.
  - intros [a' [r [H Hs]]]. injection H as -> _. congruence.
Qed.

Lemma hello_matches_dec args p s :
  serverProtocol (handler s) = Some p ->
  hello_secret_matches args (secret p) \/ ~ hello_secret_matches args (secret p).
Proof.
  intros Hp. destruct (hello_test_run args p s Hp) as [[|] [_ Hb]].
  - left. apply Hb. reflexivity.
  - right. intros H. apply Hb in H. discriminate.
Qed.

Lemma reply_events_shape p w encMsg :
  exists pre, reply_events p w encMsg = (pre ++ [send_str w encMsg])%list /\
              Forall (attachment_event w) pre.
Proof.
  unfold reply_events. rewrite app_assoc. eexists. split; [reflexivity|].
  apply Forall_app. split.
  - induction (matched_keys p encMsg) as [|k r IH]; simpl; [constructor|].
    repeat (constructor; try apply ae_header).
    exact IH.
  - destruct (attachmentMap p); repeat constructor.
Qed.

Lemma handleSystemMessage_other env id methodName args c s :
  (before_colon id =? "system")%string = false ->
  handleSystemMessage env (VStr id) methodName args c s = (Ok false, s).
Proof. intros H. unfold handleSystemMessage. rewrite H. reflexivity. Qed.

Lemma handleSystemMessage_unknown env id methodName args c w s :
  (before_colon id =? "system")%string = true ->
  str_eq methodName "wslink.hello" = false ->
  c <> "" -> ws_lookup (connections (handler s)) c = Some w ->
  handleSystemMessage env (VStr id) methodName args c s =
    (Ok true,
     logged [send_str w (wire (error_wrapper (VStr id) (METHOD_NOT_FOUND env)
                                 "Unknown system method called" VNone))] s).
Proof.
  intros Hsys Hm Hc Hw. unfold handleSystemMessage. rewrite Hsys, Hm.
  unfold bind.
  rewrite (sendWrappedError_run (VStr id) _ _ VNone c w s eq_refl eq_refl Hc Hw).
  reflexivity.
Qed.

Lemma hello_result_dumps id c :
  json_dumps (result_wrapper (VStr id) (hello_result c)) =
  Some (wire (result_wrapper (VStr id) (hello_result c))).
Proof. apply dumps_wire. reflexivity. Qed.

Lemma handleSystemMessage_hello env id args c w p s :
  (before_colon id =? "system")%string = true ->
  c <> "" -> ws_lookup (connections (handler s)) c = Some w ->
  serverProtocol (handler s) = Some p ->
  (hello_secret_matches args (secret p) ->
   handleSystemMessage env (VStr id) (VStr "wslink.hello") args c s =
     (Ok true,
      {| handler := handler s;
         pm := pm_after_reply (pm s)
                 (wire (result_wrapper (VStr id) (hello_result c)));
         trace := trace s ++
                  reply_events (pm s) w
                    (wire (result_wrapper (VStr id) (hello_result c))) |})) /\
  (~ hello_secret_matches args (secret p) ->
   handleSystemMessage env (VStr id) (VStr "wslink.hello") args c s =
     (Ok true,
      logged [send_str w (wire (error_wrapper (VStr id) (AUTHENTICATION_ERROR env)
                                  "Authentication failed" VNone))] s)).
Proof.
  intros Hsys Hc Hw Hp.
  destruct (hello_test_run args p s Hp) as [b [Hrun Hb]].
  unfold handleSystemMessage. rewrite Hsys.
  change (str_eq (VStr "wslink.hello") "wslink.hello") with true. cbv iota.
  unfold bind. rewrite Hrun.
  split; intros H.
  - apply Hb in H. subst b. cbv iota.
    fold (hello_result c).
    rewrite (sendWrappedMessage_run env (VStr id) (hello_result c) (VStr "") c w s
               _ (hello_result_dumps id c) Hc Hw).
    reflexivity.
  - destruct b; [exfalso; apply H, Hb; reflexivity|]. cbv iota.
    rewrite (sendWrappedError_run (VStr id) _ _ VNone c w s eq_refl eq_refl Hc Hw).
    reflexivity.
Qed.

(** ** Requests *)

Lemma onMessage_request env payload d version rpcid methodName c s :
  json_loads env payload = Some (VDict d) ->
  dict_get d "wslink" = Some version ->
  dict_get d "id" = Some rpcid ->
  dict_get d "method" = Some methodName ->
  onMessage env (TEXT payload) c s =
  dispatch_request env rpcid methodName (request_args d) (request_kwargs d) c s.
Proof.
  intros Hl Hv Hi Hm. unfold onMessage. rewrite Hl. unfold dispatch, dispatch_dict.
  rewrite (dict_has_get d "id" rpcid Hi). simpl negb. cbv iota.
  rewrite Hv, Hi, Hm. reflexivity.
Qed.

Lemma dispatch_request_system env id methodName args kwargs c s s' :
  handleSystemMessage env (VStr id) methodName args c s = (Ok true, s') ->
  dispatch_request env (VStr id) methodName args kwargs c s = (Ok tt, s').
Proof.
  intros H. unfold dispatch_request, bind. rewrite H. reflexivity.
Qed.


(** A system message is always answered, and takes the system path. *)
Lemma handleSystemMessage_system env id methodName args c w p s :
  (before_colon id =? "system")%string = true ->
  c <> "" -> ws_lookup (connections (handler s)) c = Some w ->
  serverProtocol (handler s) = Some p ->
  exists s', handleSystemMessage env (VStr id) methodName args c s = (Ok true, s') /\
             one_reply (VStr id) w (trace s) (trace s').
Proof.
  intros Hsys Hc Hw Hp.
  destruct (str_eq methodName "wslink.hello") eqn:Hm.
  - apply str_eq_true in Hm. subst methodName.
    destruct (handleSystemMessage_hello env id args c w p s Hsys Hc Hw Hp)
      as [Hyes Hno].
    destruct (hello_matches_dec args p s Hp) as [H|H].
    + eexists. split; [apply (Hyes H)|]. cbn [trace].
      destruct (reply_events_shape (pm s) w
                  (wire (result_wrapper (VStr id) (hello_result c))))
        as [pre [-> Hpre]].
      exists pre. eexists. eexists.
      split; [reflexivity|]. split; [apply hello_result_dumps|].
      split; [|exact Hpre].
      eexists. split; [reflexivity|]. split; reflexivity.
    + eexists. split; [apply (Hno H)|]. unfold logged. cbn [trace].
      exists []. eexists. eexists.
      split; [reflexivity|]. split; [apply dumps_wire; reflexivity|].
      split; [|constructor].
      eexists. split; [reflexivity|]. split; reflexivity.
  - eexists. split.
    + apply (handleSystemMessage_unknown env id methodName args c w s Hsys Hm Hc Hw).
    + unfold logged. cbn [trace].
      exists []. eexists. eexists.
      split; [reflexivity|]. split; [apply dumps_wire; reflexivity|].
      split; [|constructor].
      eexists. split; [reflexivity|]. split; reflexivity.
Qed.

(** C8 (amended): a request with a string id is handled as a system
    message exactly when the part of its id before the first colon is
    [system], that is when the id is [system] or begins with [system:].
    Then [handleSystemMessage] returns true and the request ends there,
    without a look at the function map; otherwise [handleSystemMessage]
    returns false and leaves the state as it was. *)
Theorem C8_system_dispatch env id methodName args kwargs c w p s :
  c <> "" ->
  ws_lookup (connections (handler s)) c = Some w ->
  serverProtocol (handler s) = Some p ->
  let system := id = "system" \/ system_prefixed id = true in
  (fst (handleSystemMessage env (VStr id) methodName args c s) = Ok true <-> system) /\
  (system ->
   dispatch_request env (VStr id) methodName args kwargs c s =
     (Ok tt, snd (handleSystemMessage env (VStr id) methodName args c s))) /\
  (~ system ->
   handleSystemMessage env (VStr id) methodName args c s = (Ok false, s)).
Proof.
  intros Hc Hw Hp system.
  destruct (before_colon id =? "system")%string eqn:Hsys.
  - assert (Hs : system) by (apply system_id_iff; exact Hsys).
    destruct (handleSystemMessage_system env id methodName args c w p s Hsys Hc Hw Hp)
      as [s' [Hrun _]].
    split; [|split].
    + rewrite Hrun. split; [intros _; exact Hs|reflexivity].
    + intros _. rewrite Hrun. cbn [snd].
      apply dispatch_request_system. exact Hrun.
    + intros Hn. contradiction.
  - assert (Hs : ~ system).
    { intros H. apply system_id_iff in H. congruence. }
    rewrite (handleSystemMessage_other env id methodName args c s Hsys).
    split; [|split].
    + cbn [fst]. split; [discriminate|intros H; contradiction].
    + intros H. contradiction.
    + intros _. reflexivity.
Qed.

(** ** Error replies *)

Lemma error_wrapper_cases rpcid code message data :
  error_wrapper rpcid code message data =
  if truthy data then error_with_data rpcid code message data
  else plain_error rpcid code message.
Proof.
  unfold error_wrapper, error_with_data, plain_error.
  destruct (truthy data); reflexivity.
Qed.

Lemma dispatch_request_unregistered env id m args kwargs c w s :
  (before_colon id =? "system")%string = false ->
  fm_lookup (functionMap (handler s)) m = None ->
  c <> "" -> ws_lookup (connections (handler s)) c = Some w ->
  dispatch_request env (VStr id) (VStr m) args kwargs c s =
    (Ok tt,
     logged [send_str w (wire (error_wrapper (VStr id) (METHOD_NOT_FOUND env)
                                 "Unregistered method called" (VStr m)))] s).
Proof.
  intros Hsys Hf Hc Hw. unfold dispatch_request, bind.
  rewrite (handleSystemMessage_other env id (VStr m) args c s Hsys).
  cbn [hashable negb]. unfold get_handler, fm_find. rewrite Hf.
  apply (sendWrappedError_run (VStr id) _ _ (VStr m) c w s eq_refl eq_refl Hc Hw).
Qed.

(** C7 (amended): unknown methods, for a request of a connected client
    whose id is a string.  When the id has the system prefix and the
    method is not [wslink.hello], the reply is the error
    [METHOD_NOT_FOUND], "Unknown system method called", without [data].
    When the id is not a system id and the method is a string that is not
    in the function map, the reply is the error [METHOD_NOT_FOUND],
    "Unregistered method called"; its [data] is the method name when the
    name is not empty, and there is no [data] when the name is empty.
    This is what [onMessage] does for such a request decoded from a text
    frame. *)
Theorem C7_unknown_method env id methodName args kwargs c w s :
  c <> "" ->
  ws_lookup (connections (handler s)) c = Some w ->
  let out := dispatch_request env (VStr id) methodName args kwargs c s in
  (system_prefixed id = true ->
   methodName <> VStr "wslink.hello" ->
   exists encMsg,
     json_dumps (plain_error (VStr id) (METHOD_NOT_FOUND env)
                   "Unknown system method called") = Some encMsg /\
     out = (Ok tt, logged [send_str w encMsg] s)) /\
  (forall m,
     methodName = VStr m ->
     before_colon id <> "system" ->
     fm_lookup (functionMap (handler s)) m = None ->
     exists encMsg,
       json_dumps (if (m =? "")%string
                   then plain_error (VStr id) (METHOD_NOT_FOUND env)
                          "Unregistered method called"
                   else error_with_data (VStr id) (METHOD_NOT_FOUND env)
                          "Unregistered method called" (VStr m)) = Some encMsg /\
       out = (Ok tt, logged [send_str w encMsg] s)) /\
  (forall payload d version,
     json_loads env payload = Some (VDict d) ->
     dict_get d "wslink" = Some version ->
     dict_get d "id" = Some (VStr id) ->
     dict_get d "method" = Some methodName ->
     request_args d = args ->
     request_kwargs d = kwargs ->
     onMessage env (TEXT payload) c s = out).
Proof.
  intros Hc Hw out. subst out.
  split; [|split].
  - intros Hsys Hne.
    assert (Hs : (before_colon id =? "system")%string = true).
    { apply system_id_iff. right. exact Hsys. }
    assert (Hh : str_eq methodName "wslink.hello" = false).
    { destruct (str_eq methodName "wslink.hello") eqn:E; [|reflexivity].
      apply str_eq_true in E. contradiction. }
    eexists. split; [apply dumps_wire; reflexivity|].
    apply dispatch_request_system.
    apply (handleSystemMessage_unknown env id methodName _ c w s Hs Hh Hc Hw).
  - intros m -> Hns Hf.
    assert (Hs : (before_colon id =? "system")%string = false).
    { apply String.eqb_neq. exact Hns. }
    rewrite (dispatch_request_unregistered env id m _ _ c w s Hs Hf Hc Hw).
    rewrite error_wrapper_cases. cbn [truthy].
    destruct (m =? "")%string; cbn [negb];
      (eexists; split; [apply dumps_wire; reflexivity|reflexivity]).
  - intros payload d version Hl Hv Hi Hm <- <-.
    apply (onMessage_request env payload d version (VStr id) methodName c s
             Hl Hv Hi Hm).
Qed.


(** ** Registered methods *)

Lemma findAttachments_list l R :
  exists l' R', findAttachments (VList l) R = (VList l', R').
Proof.
  simpl.
  match goal with
  | |- context [let (_, _) := ?items l R in _] => destruct (items l R) as [l' R']
  end.
  eauto.
Qed.

Lemma findAttachments_dict d R :
  exists d' R', findAttachments (VDict d) R = (VDict d', R').
Proof.
  simpl.
  match goal with
  | |- context [let (_, _) := ?items d R in _] => destruct (items d R) as [d' R']
  end.
  eauto.
Qed.












(** ** Binary frames *)

Lemma key_eqb_refl k : hashable k = true -> key_eqb k k = true.
Proof.
  destruct k; simpl; try discriminate; intros _.
  - reflexivity.
  - apply Bool.eqb_reflx.
  - apply Z.eqb_refl.
  - apply String.eqb_refl.
  - destruct (list_eq_dec Byte.byte_eq_dec b b); [reflexivity|contradiction].
Qed.

Lemma recv_get_set m key payload :
  hashable key = true -> recv_get (recv_set m key payload) key = Some payload.
Proof.
  intros Hk. induction m as [|[k' b'] r IH]; simpl.
  - rewrite (key_eqb_refl key Hk). reflexivity.
  - destruct (key_eqb k' key) eqn:E; simpl; rewrite E; [reflexivity|exact IH].
Qed.

(** C5 (amended): a binary frame never raises.  With an empty queue the
    frame is dropped and the state stays as it was.  Otherwise the head
    of the queue is popped; when the head is hashable (a string, a
    number, a boolean or null) the payload is recorded in the received
    attachments under it, and when the head is a list or a mapping the
    payload is dropped. *)
Theorem C5_binary_frame env payload c s :
  onMessage env (BINARY payload) c s =
    (Ok tt,
     match attachmentsRecvQueue (handler s) with
     | [] => s
     | key :: rest =>
         {| handler :=
              (if hashable key
               then set_attachmentsReceived
                      (recv_set (attachmentsReceived (handler s)) key payload)
                      (set_attachmentsRecvQueue rest (handler s))
               else set_attachmentsRecvQueue rest (handler s));
            pm := pm s;
            trace := trace s |}
     end) /\
  (forall received key,
     hashable key = true ->
     recv_get (recv_set received key payload) key = Some payload).
Proof.
  split; [|intros received key; apply recv_get_set].
  unfold onMessage, try_except, bind, pop_queue, bind, get_handler.
  destruct (attachmentsRecvQueue (handler s)) as [|key rest] eqn:Hq.
  - reflexivity.
  - unfold store_received. cbn.
    destruct (hashable key); reflexivity.
Qed.

(** ** The attachment codec *)




Lemma key_eqb_str k s : key_eqb k (VStr s) = true <-> k = VStr s.
Proof.
  destruct k; simpl; try (split; discriminate).
  rewrite String.eqb_eq. split; [intros ->; reflexivity|congruence].
Qed.




(** ** Sessions *)

Lemma handler_store_same l route h :
  handler_lookup l route = Some h -> handler_store l route h = l.
Proof.
  induction l as [|[r h'] rest IH]; simpl; [reflexivity|].
  destruct (r =? route)%string.
  - intros H. injection H as ->. reflexivity.
  - intros H. rewrite (IH H). reflexivity.
Qed.

Lemma handler_lookup_store l route h h' :
  handler_lookup l route = Some h ->
  handler_lookup (handler_store l route h') route = Some h'.
Proof.
  induction l as [|[r h0] rest IH]; simpl; [discriminate|].
  destruct (r =? route)%string eqn:E; simpl; rewrite E; [reflexivity|exact IH].
Qed.

(** A method that raises without a change of state leaves the
    application as it was. *)
Lemma on_handler_raise {A} route (c : M A) a h e :
  handler_lookup (handlers a) route = Some h ->
  c {| handler := h; pm := publishManager a; trace := transport a |} =
    (Raise e, {| handler := h; pm := publishManager a; trace := transport a |}) ->
  on_handler route c a = (Raise e, a).
Proof.
  intros Hh Hc. unfold on_handler. rewrite Hh, Hc. cbn [handler pm trace].
  rewrite (handler_store_same _ _ _ Hh). destruct a; reflexivity.
Qed.

Lemma on_handler_keeps_route {A} route (c : M A) a h r a' :
  handler_lookup (handlers a) route = Some h ->
  on_handler route c a = (r, a') ->
  exists h', handler_lookup (handlers a') route = Some h'.
Proof.
  intros Hh. unfold on_handler. rewrite Hh.
  destruct (c _) as [r0 s0]. intros H. injection H as _ <-. cbn [handlers].
  eexists. apply (handler_lookup_store _ _ _ _ Hh).
Qed.

Lemma read_loop_keeps_route env route c msgs : forall a h r a',
  handler_lookup (handlers a) route = Some h ->
  read_loop env route c msgs a = (r, a') ->
  exists h', handler_lookup (handlers a') route = Some h'.
Proof.
  induction msgs as [|msg rest IH]; intros a h r a' Hh; simpl.
  - intros H. injection H as _ <-. eauto.
  - destruct (on_handler route (onMessage env msg c) a) as [[[]|e] a1] eqn:E.
    + destruct (on_handler_keeps_route _ _ _ _ _ _ Hh E) as [h1 Hh1].
      apply (IH _ _ _ _ Hh1).
    + intros H. injection H as _ <-.
      apply (on_handler_keeps_route _ _ _ _ _ _ Hh E).
Qed.

Lemma read_loop_app env route c l1 l2 a :
  read_loop env route c (l1 ++ l2) a =
  match read_loop env route c l1 a with
  | (Ok _, a') => read_loop env route c l2 a'
  | (Raise e, a') => (Raise e, a')
  end.
Proof.
  revert a. induction l1 as [|msg rest IH]; intros a; simpl; [reflexivity|].
  destruct (on_handler route (onMessage env msg c) a) as [[[]|e] a1];
    [apply IH|reflexivity].
Qed.

(** C4 (amended): a text frame whose payload [json.loads] rejects.  No
    reply is sent and the state of the handler stays as it was; but the
    error is not caught: [onMessage] raises it, the read loop of the
    session stops at this frame, the frames after it are not processed,
    and [handleWsRequest] ends with the error before its closing part,
    which has not run. *)
Theorem C4_malformed_json env payload c :
  json_loads env payload = None ->
  (forall s, onMessage env (TEXT payload) c s = (Raise JSONDecodeError, s)) /\
  (forall route rest a h,
     handler_lookup (handlers a) route = Some h ->
     read_loop env route c (TEXT payload :: rest) a = (Raise JSONDecodeError, a)) /\
  (forall route w before rest a a1 a2 h,
     handler_lookup (handlers a1) route = Some h ->
     handleWsRequest_open route c w a = (Ok tt, a1) ->
     read_loop env route c before a1 = (Ok tt, a2) ->
     handleWsRequest env route c w (before ++ TEXT payload :: rest) a =
       (Raise JSONDecodeError, a2)).
Proof.
  intros Hl.
  assert (Hmsg : forall s, onMessage env (TEXT payload) c s = (Raise JSONDecodeError, s)).
  { intros s. unfold onMessage. rewrite Hl. reflexivity. }
  assert (Hloop : forall route rest a h,
            handler_lookup (handlers a) route = Some h ->
            read_loop env route c (TEXT payload :: rest) a = (Raise JSONDecodeError, a)).
  { intros route rest a h Hh. cbn [read_loop].
    rewrite (on_handler_raise route _ a h JSONDecodeError Hh (Hmsg _)).
    reflexivity. }
  split; [exact Hmsg|]. split; [exact Hloop|].
  intros route w before rest a a1 a2 h Hh Hopen Hbefore.
  unfold handleWsRequest. rewrite Hopen, read_loop_app, Hbefore.
  destruct (read_loop_keeps_route env route c before a1 h _ a2 Hh Hbefore)
    as [h2 Hh2].
  rewrite (Hloop route rest a2 h2 Hh2). reflexivity.
Qed.

(** ** The idle-shutdown timer *)

Lemma for_each_modify {A} (l : list A) (f : A -> WslinkHandler -> WslinkHandler) :
  (forall x h, connections (f x h) = connections h) ->
  forall s, exists h',
    for_each l (fun x => h <- get_handler ;; modify_handler (f x)) s =
      (Ok tt, {| handler := h'; pm := pm s; trace := trace s |}) /\
    connections h' = connections (handler s).
Proof.
  intros Hf. induction l as [|x r IH]; intros s.
  - exists (handler s). destruct s. split; reflexivity.
  - cbn [for_each]. unfold bind at 1. unfold bind at 1.
    unfold get_handler at 1. unfold modify_handler at 1.
    destruct (IH {| handler := f x (handler s); pm := pm s; trace := trace s |})
      as [h' [Hrun Hconn]].
    exists h'. split; [exact Hrun|]. rewrite Hconn. apply Hf.
Qed.

Lemma onConnect_run s :
  exists h', onConnect s = (Ok tt, {| handler := h'; pm := pm s; trace := trace s |}) /\
             connections h' = connections (handler s).
Proof.
  unfold onConnect, bind, get_handler.
  destruct (serverProtocol (handler s)) as [p|].
  - apply (for_each_modify (exposed p)
             (fun ue h => set_functionMap (assoc_set (functionMap h) (fst ue) (snd ue)) h)).
    intros x h. reflexivity.
  - exists (handler s). destruct s. split; reflexivity.
Qed.



Lemma ws_lookup_in l k : In k (map fst l) -> exists w, ws_lookup l k = Some w.
Proof.
  induction l as [|[k' w'] r IH]; simpl; [intros []|].
  intros [->|H].
  - rewrite String.eqb_refl. eauto.
  - destruct (k' =? k)%string; eauto.
Qed.


Lemma close_loop_run h keys : forall s,
  (forall k, In k keys -> In k (map fst (connections h))) ->
  for_each keys (fun client_id =>
    match ws_lookup (connections h) client_id with
    | Some w => emit (ws_close w GOING_AWAY "Server shutdown")
    | None => raise KeyError
    end) s =
  (Ok tt,
   logged (flat_map (fun client_id =>
                       match ws_lookup (connections h) client_id with
                       | Some w => [ws_close w GOING_AWAY "Server shutdown"]
                       | None => []
                       end) keys) s).
Proof.
  induction keys as [|k r IH]; intros s Hin.
  - simpl. unfold ret. rewrite logged_nil. reflexivity.
  - cbn [for_each flat_map]. unfold bind.
    destruct (ws_lookup_in _ _ (Hin k (or_introl eq_refl))) as [w ->].
    unfold emit at 1. rewrite IH by (intros k' Hk'; apply Hin; right; exact Hk').
    unfold logged. cbn [handler pm trace]. rewrite <- app_assoc. reflexivity.
Qed.

Lemma disconnectClients_run s :
  disconnectClients s = (Ok tt, logged (close_events (handler s)) s).
Proof.
  unfold disconnectClients, bind, get_handler.
  apply close_loop_run. intros k Hk. exact Hk.
Qed.

Lemma disconnect_all_run hs : forall a,
  disconnect_all hs a =
    (Ok tt,
     {| timeout := timeout a; handlers := handlers a;
        shutdown_task := shutdown_task a; tasks := tasks a;
        runner_cleaned := runner_cleaned a; running := running a;
        publishManager := publishManager a;
        transport := transport a ++ flat_map (fun rh => close_events (snd rh)) hs |}).
Proof.
  induction hs as [|[route h] rest IH]; intros a.
  - simpl. rewrite app_nil_r. destruct a; reflexivity.
  - cbn [disconnect_all]. rewrite disconnectClients_run.
    unfold logged. cbn [handler pm trace]. rewrite IH.
    cbn [timeout handlers shutdown_task tasks runner_cleaned running
         publishManager transport flat_map snd].
    rewrite <- app_assoc. reflexivity.
Qed.


Lemma handleWsRequest_open_run route c w a h :
  handler_lookup (handlers a) route = Some h ->
  exists a' h',
    handleWsRequest_open route c w a = (Ok tt, a') /\
    shutdown_task a' = None /\
    tasks a' = match shutdown_task a with
               | Some t => tasks (cancel t a)
               | None => tasks a
               end /\
    handler_lookup (handlers a') route = Some h' /\
    connections h' = assoc_set (connections h) c w.
Proof.
  intros Hh. unfold handleWsRequest_open.
  unfold on_handler at 1. rewrite Hh.
  cbv beta iota delta [bind get_handler modify_handler handler pm trace].
  set (h1 := set_connections (assoc_set (connections h) c w) h).
  set (a1 := {| timeout := timeout a;
                handlers := handler_store (handlers a) route h1;
                shutdown_task := shutdown_task a; tasks := tasks a;
                runner_cleaned := runner_cleaned a; running := running a;
                publishManager := publishManager a; transport := transport a |}).
  set (a2 := match shutdown_task a1 with
             | Some t => set_shutdown_task None (cancel t a1)
             | None => a1
             end).
  assert (Hh2 : handler_lookup (handlers a2) route = Some h1).
  { unfold a2. cbn [shutdown_task a1].
    destruct (shutdown_task a) as [t|].
    - unfold cancel. destruct (task_pending a1 t);
        apply (handler_lookup_store _ _ _ _ Hh).
    - apply (handler_lookup_store _ _ _ _ Hh). }
  assert (Hs2 : shutdown_task a2 = None).
  { unfold a2, a1. cbn [shutdown_task].
    destruct (shutdown_task a) as [t|]; reflexivity. }
  assert (Ht2 : tasks a2 = match shutdown_task a with
                           | Some t => tasks (cancel t a)
                           | None => tasks a
                           end).
  { unfold a2. cbn [shutdown_task a1].
    destruct (shutdown_task a) as [t|]; [|reflexivity].
    unfold cancel, task_pending. cbn [tasks a1 set_shutdown_task].
    destruct (nth_error (tasks a) t) as [[d [| |]]|]; reflexivity. }
  unfold on_handler. rewrite Hh2.
  destruct (onConnect_run {| handler := h1; pm := publishManager a2;
                             trace := transport a2 |}) as [h' [Hrun Hconn]].
  rewrite Hrun. eexists. exists h'.
  split; [reflexivity|]. cbn [shutdown_task tasks handlers].
  split; [exact Hs2|]. split; [exact Ht2|].
  split; [apply (handler_lookup_store _ _ _ _ Hh2)|exact Hconn].
Qed.

Lemma handleWsRequest_close_run route c a h w :
  handler_lookup (handlers a) route = Some h ->
  ws_lookup (connections h) c = Some w ->
  exists a',
    handleWsRequest_close route c a = (Ok tt, a') /\
    handler_lookup (handlers a') route =
      Some (set_connections (assoc_del (connections h) c) h) /\
    (assoc_del (connections h) c = [] ->
     shutdown_task a' = Some (List.length (tasks a)) /\
     tasks a' = (tasks a ++ [{| delay := timeout a; status := Pending |}])%list) /\
    (assoc_del (connections h) c <> [] ->
     shutdown_task a' = shutdown_task a /\ tasks a' = tasks a).
Proof.
  intros Hh Hw. unfold handleWsRequest_close, on_handler. rewrite Hh.
  cbv beta iota delta [bind onClose ret get_handler modify_handler handler pm trace].
  rewrite Hw.
  cbv beta iota delta [bind onClose ret get_handler modify_handler handler pm trace].
  cbn [connections set_connections].
  destruct (assoc_del (connections h) c) as [|e r] eqn:Hd.
  - eexists. split; [reflexivity|].
    unfold _schedule_shutdown, schedule_coroutine.
    cbn [handlers shutdown_task tasks set_shutdown_task set_tasks timeout].
    split; [apply (handler_lookup_store _ _ _ _ Hh)|].
    split; [intros _; split; reflexivity|intros H; contradiction].
  - eexists. split; [reflexivity|]. cbn [handlers shutdown_task tasks].
    split; [apply (handler_lookup_store _ _ _ _ Hh)|].
    split; [discriminate|intros _; split; reflexivity].
Qed.



(** * The theorems at work, and what fails *)




(** A reply that names the two blobs of the publish manager. *)
Lemma C2_witness :
  trace (snd (sendWrappedMessage (sample_env []) (VStr "rpc:3") two_keys (VStr "m")
                (Some sample_client) two_blobs_state)) =
  [pm_registerAttachment "wslink_bin0";
   send_str 1%nat (wire (attachment_header "wslink_bin0"));
   send_bytes 1%nat [Byte.x00];
   pm_unregisterAttachment "wslink_bin0";
   pm_registerAttachment "wslink_bin1";
   send_str 1%nat (wire (attachment_header "wslink_bin1"));
   send_bytes 1%nat [Byte.x01];
   pm_unregisterAttachment "wslink_bin1";
   pm_freeAttachments ["wslink_bin0"; "wslink_bin1"];
   send_str 1%nat (wire (result_wrapper (VStr "rpc:3") two_keys))].
Proof.
  refine (proj1 (proj2
    (C2_attachments_precede_reply (sample_env []) (VStr "rpc:3") two_keys (VStr "m")
       sample_client 1%nat two_blobs_state
       (wire (result_wrapper (VStr "rpc:3") two_keys)) _ _ _ _))).
  - reflexivity.
  - discriminate.
  - reflexivity.
  - repeat constructor; simpl; lia.
Defined.

(** C2 as stated fails: [freeAttachments] is called before the JSON text
    of the reply is sent, not after it.  The pairs follow the order of
    the attachment map: the text names [wslink_bin1] before
    [wslink_bin0], and the header of [wslink_bin0] is sent first. *)
Lemma C2_counterexample :
  ~ freed_after_send
      (trace (snd (sendWrappedMessage (sample_env []) (VStr "rpc:3") two_keys
                     (VStr "m") (Some sample_client) two_blobs_state)))
      1%nat (wire (result_wrapper (VStr "rpc:3") two_keys)) /\
  first_index "wslink_bin1" (wire (result_wrapper (VStr "rpc:3") two_keys)) =
    Some 45%nat /\
  first_index "wslink_bin0" (wire (result_wrapper (VStr "rpc:3") two_keys)) =
    Some 60%nat /\
  nth_error
    (trace (snd (sendWrappedMessage (sample_env []) (VStr "rpc:3") two_keys
                   (VStr "m") (Some sample_client) two_blobs_state))) 1 =
    Some (send_str 1%nat (wire (attachment_header "wslink_bin0"))).
Proof.
  split; [|repeat split; reflexivity].
  intros H.
  specialize (H [pm_registerAttachment "wslink_bin0";
                 send_str 1%nat (wire (attachment_header "wslink_bin0"));
                 send_bytes 1%nat [Byte.x00];
                 pm_unregisterAttachment "wslink_bin0";
                 pm_registerAttachment "wslink_bin1";
                 send_str 1%nat (wire (attachment_header "wslink_bin1"));
                 send_bytes 1%nat [Byte.x01];
                 pm_unregisterAttachment "wslink_bin1"]
                ["wslink_bin0"; "wslink_bin1"]
                [send_str 1%nat (wire (result_wrapper (VStr "rpc:3") two_keys))]
                eq_refl).
  vm_compute in H.
  repeat (destruct H as [H|H]; [discriminate H|]). exact H.
Qed.


(** A text that is not JSON. *)
Lemma C4_witness :
  onMessage (sample_env []) (TEXT "{") sample_client sample_state =
    (Raise JSONDecodeError, sample_state).
Proof.
  refine (proj1 (C4_malformed_json (sample_env []) "{" sample_client _) sample_state).
  reflexivity.
Defined.

(** C4 as stated fails: after a text that is not JSON the session does
    not go on.  The hello that follows it is not answered, while the same
    hello alone is. *)
Lemma C4_counterexample :
  read_loop (sample_env [VDict (hello_request "S")]) "ws" sample_client
    [TEXT "{"; TEXT (wire (VDict (hello_request "S")))] sample_app =
    (Raise JSONDecodeError, sample_app) /\
  fst (read_loop (sample_env [VDict (hello_request "S")]) "ws" sample_client
         [TEXT (wire (VDict (hello_request "S")))] sample_app) = Ok tt /\
  transport
    (snd (read_loop (sample_env [VDict (hello_request "S")]) "ws" sample_client
            [TEXT (wire (VDict (hello_request "S")))] sample_app)) =
    [send_str 1%nat
       (wire (result_wrapper (VStr "system:0") (hello_result sample_client)))].
Proof.
  repeat split; reflexivity.
Qed.

(** A binary frame that follows the header of the fourth scenario is
    recorded under [wslink_bin7]. *)
Lemma C5_witness :
  recv_get
    (attachmentsReceived
       (handler
          (snd (onMessage (sample_env []) (BINARY [Byte.x00; Byte.x01; Byte.x02])
                  sample_client
                  {| handler := set_attachmentsRecvQueue [VStr "wslink_bin7"]
                                  sample_handler;
                     pm := empty_pm; trace := [] |}))))
    (VStr "wslink_bin7") = Some [Byte.x00; Byte.x01; Byte.x02].
Proof.
  rewrite (proj1 (C5_binary_frame (sample_env []) [Byte.x00; Byte.x01; Byte.x02]
                    sample_client
                    {| handler := set_attachmentsRecvQueue [VStr "wslink_bin7"]
                                    sample_handler;
                       pm := empty_pm; trace := [] |})).
  reflexivity.
Defined.

(** C5 as stated fails: an attachment header may name a key that is a
    list.  The binary frame that follows pops this key from the queue and
    records nothing. *)
Lemma C5_counterexample :
  attachmentsRecvQueue
    (handler (snd (onMessage (sample_env [VDict list_key_header])
                     (TEXT (wire (VDict list_key_header)))
                     sample_client sample_state))) = [VList []] /\
  onMessage (sample_env []) (BINARY [Byte.x01]) sample_client
    {| handler := set_attachmentsRecvQueue [VList []] sample_handler;
       pm := empty_pm; trace := [] |} =
    (Ok tt, sample_state) /\
  attachmentsRecvQueue (handler sample_state) = [] /\
  attachmentsReceived (handler sample_state) = [].
Proof.
  repeat split; reflexivity.
Qed.


(** The third scenario: a method that is not registered. *)
Lemma C7_witness :
  exists encMsg,
    json_dumps (error_with_data (VStr "rpc:1") (-32601)
                  "Unregistered method called" (VStr "no.such.method"))
      = Some encMsg /\
    dispatch_request (sample_env []) (VStr "rpc:1") (VStr "no.such.method") [] []
      sample_client sample_state =
      (Ok tt, logged [send_str 1%nat encMsg] sample_state).
Proof.
  refine (proj1 (proj2
    (C7_unknown_method (sample_env []) "rpc:1" (VStr "no.such.method") [] []
       sample_client 1%nat sample_state _ _))
    "no.such.method" _ _ _).
  - discriminate.
  - reflexivity.
  - reflexivity.
  - discriminate.
  - reflexivity.
Defined.

(** C7 as stated fails: for a method whose name is the empty string the
    reply has no [data]; the word does not occur in the text sent. *)
Lemma C7_counterexample :
  onMessage (sample_env [VDict (unknown_request "rpc:1" "")])
    (TEXT (wire (VDict (unknown_request "rpc:1" "")))) sample_client sample_state =
    (Ok tt,
     logged [send_str 1%nat
               (wire (plain_error (VStr "rpc:1") (-32601)
                        "Unregistered method called"))] sample_state) /\
  contains "data"
    (wire (plain_error (VStr "rpc:1") (-32601) "Unregistered method called")) = false.
Proof.
  split; reflexivity.
Qed.

(** A hello is handled as a system message. *)
Lemma C8_witness :
  fst (handleSystemMessage (sample_env []) (VStr "system:0") (VStr "wslink.hello")
         [] sample_client sample_state) = Ok true.
Proof.
  refine (proj2 (proj1
    (C8_system_dispatch (sample_env []) "system:0" (VStr "wslink.hello") [] []
       sample_client 1%nat sample_protocol sample_state _ _ _)) _).
  - discriminate.
  - reflexivity.
  - reflexivity.
  - right. reflexivity.
Defined.

(** C8 as stated fails: the id [system] does not begin with [system:],
    and a request that carries it is handled as a system message. *)
Lemma C8_counterexample :
  system_prefixed "system" = false /\
  handleSystemMessage (sample_env []) (VStr "system") (VStr "echo.blob") []
    sample_client sample_state =
    (Ok true,
     logged [send_str 1%nat
               (wire (plain_error (VStr "system") (-32601)
                        "Unknown system method called"))] sample_state).
Proof.
  split; reflexivity.
Qed.



(** [setSecret] stores a secret on the handler; the hello test reads the
    secret of the server protocol and is not changed by it. *)
Lemma setSecret_not_consulted newSecret args s :
  fst (hello_test args (snd (setSecret newSecret s))) = fst (hello_test args s).
Proof.
  unfold setSecret, modify_handler, hello_test. cbn [snd].
  destruct args as [|a0 rest]; [reflexivity|].
  destruct (truthy a0); [|reflexivity]. cbn [negb].
  destruct a0; try reflexivity.
  destruct (dict_get d "secret"); [|reflexivity].
  unfold bind, get_handler. cbn [handler set_handler_secret serverProtocol].
  destruct (serverProtocol (handler s)); reflexivity.
Qed.

(** * More of the module *)

(** ** Paths and routes *)

Lemma prefix_slash path : prefix "/" path = true <-> exists r, path = String "/" r.
Proof.
  destruct path as [|a r]; cbn [prefix].
  - split; [discriminate|intros [r H]; discriminate].
  - destruct (ascii_dec "/" a) as [<-|Hne]; split.
    + intros _. eexists. reflexivity.
    + intros _. destruct r; reflexivity.
    + discriminate.
    + intros [r' H]. inversion H as [[Ha Hr]]. exfalso. apply Hne. symmetry.
      exact Ha.
Qed.

Lemma _fix_path_slash path : prefix "/" (_fix_path path) = true.
Proof.
  unfold _fix_path. destruct (prefix "/" path) eqn:E; [exact E|].
  apply prefix_slash. eexists. reflexivity.
Qed.

(** X1: [_fix_path] always gives a path that starts with a slash, leaves
    such a path as it is and only such a path, and applied twice does
    what it does once.  Two paths get the same result exactly when they
    are equal or differ by one leading slash that one of them lacks. *)
Theorem X1_fix_path p q :
  prefix "/" (_fix_path p) = true /\
  (_fix_path p = p <-> prefix "/" p = true) /\
  _fix_path (_fix_path p) = _fix_path p /\
  (_fix_path p = _fix_path q <->
   p = q \/
   (prefix "/" p = false /\ q = "/" ++ p) \/
   (prefix "/" q = false /\ p = "/" ++ q)).
Proof.
  split; [apply _fix_path_slash|]. split; [|split].
  - unfold _fix_path. destruct (prefix "/" p) eqn:E.
    + split; reflexivity.
    + split; [|discriminate]. intros H.
      apply (f_equal String.length) in H. simpl in H. lia.
  - unfold _fix_path at 1. rewrite _fix_path_slash. reflexivity.
  - unfold _fix_path.
    destruct (prefix "/" p) eqn:Ep, (prefix "/" q) eqn:Eq.
    + split; [intros ->; left; reflexivity|].
      intros [H|[[H _]|[H _]]]; [exact H|discriminate|discriminate].
    + split; [intros ->; right; right; split; reflexivity|].
      intros [H|[[H _]|[_ H]]]; [|discriminate|exact H].
      subst q. congruence.
    + split; [intros <-; right; left; split; reflexivity|].
      intros [H|[[_ H]|[H _]]]; [|symmetry; exact H|discriminate].
      subst q. congruence.
    + split.
      * intros H. injection H as H. left. exact H.
      * intros [->|[[_ H]|[_ H]]]; [reflexivity| |].
        -- subst q. assert (H : prefix "/" ("/" ++ p) = true)
             by (apply prefix_slash; eexists; reflexivity).
           congruence.
        -- subst p. assert (H : prefix "/" ("/" ++ q) = true)
             by (apply prefix_slash; eexists; reflexivity).
           congruence.
Qed.


(** ** What a message leaves alone *)

Lemma same_frame_refl s : same_frame s s.
Proof. repeat split. Qed.

Lemma same_frame_trans s1 s2 s3 :
  same_frame s1 s2 -> same_frame s2 s3 -> same_frame s1 s3.
Proof.
  intros [A1 [A2 [A3 A4]]] [B1 [B2 [B3 B4]]].
  repeat split; congruence.
Qed.

Lemma keeps_ret {A} T P (a : A) : keeps T P (ret a).
Proof.
  intros s r s' _ H. injection H as _ <-. split; [apply same_frame_refl|].
  exists []. split; [symmetry; apply app_nil_r|constructor].
Qed.

Lemma keeps_raise {A} T P e : keeps T P (@raise A e).
Proof.
  intros s r s' _ H. injection H as _ <-. split; [apply same_frame_refl|].
  exists []. split; [symmetry; apply app_nil_r|constructor].
Qed.

Lemma keeps_step {A} T P (c : M A) s r s' evs :
  connections (handler s) = T -> c s = (r, s') ->
  keeps T P c ->
  forall s0, same_frame s0 s -> trace s = (trace s0 ++ evs)%list -> Forall P evs ->
  same_frame s0 s' /\ exists evs', trace s' = (trace s0 ++ evs')%list /\ Forall P evs'.
Proof.
  intros HT Hc Hk s0 Hf Ht Hp.
  destruct (Hk s r s' HT Hc) as [Hf' [evs' [Ht' Hp']]].
  split; [apply (same_frame_trans _ _ _ Hf Hf')|].
  exists (evs ++ evs')%list. split.
  - rewrite Ht', Ht, app_assoc. reflexivity.
  - apply Forall_app. split; assumption.
Qed.

Lemma keeps_bind {A B} T P (c : M A) (k : A -> M B) :
  keeps T P c -> (forall a, keeps T P (k a)) -> keeps T P (bind c k).
Proof.
  intros Hc Hk s r s' HT H. unfold bind in H.
  destruct (c s) as [[a|e] s1] eqn:E.
  - destruct (Hc s _ s1 HT E) as [Hf [evs [Ht Hp]]].
    assert (HT1 : connections (handler s1) = T).
    { destruct Hf as [_ [_ [-> _]]]. exact HT. }
    apply (keeps_step T P (k a) s1 r s' evs HT1 H (Hk a) s Hf Ht Hp).
  - injection H as <- <-. apply (Hc s _ s1 HT E).
Qed.

Lemma keeps_try {A} T P (c : M A) (h : exn -> M A) :
  keeps T P c -> (forall e, keeps T P (h e)) -> keeps T P (try_except c h).
Proof.
  intros Hc Hh s r s' HT H. unfold try_except in H.
  destruct (c s) as [[a|e] s1] eqn:E.
  - injection H as <- <-. apply (Hc s _ s1 HT E).
  - destruct (Hc s _ s1 HT E) as [Hf [evs [Ht Hp]]].
    assert (HT1 : connections (handler s1) = T).
    { destruct Hf as [_ [_ [-> _]]]. exact HT. }
    apply (keeps_step T P (h e) s1 r s' evs HT1 H (Hh e) s Hf Ht Hp).
Qed.

Lemma keeps_for_each {A} T P (l : list A) (body : A -> M unit) :
  (forall x, In x l -> keeps T P (body x)) -> keeps T P (for_each l body).
Proof.
  induction l as [|x r IH]; intros Hb; cbn [for_each].
  - apply keeps_ret.
  - apply keeps_bind.
    + apply Hb. left. reflexivity.
    + intros _. apply IH. intros y Hy. apply Hb. right. exact Hy.
Qed.

Lemma keeps_emit T (P : event -> Prop) e : P e -> keeps T P (emit e).
Proof.
  intros He s r s' _ H. injection H as _ <-. split; [repeat split|].
  exists [e]. split; [reflexivity|repeat constructor; exact He].
Qed.

Lemma keeps_get_handler T P : keeps T P get_handler.
Proof.
  intros s r s' _ H. injection H as _ <-. split; [apply same_frame_refl|].
  exists []. split; [symmetry; apply app_nil_r|constructor].
Qed.

Lemma keeps_get_pm T P : keeps T P get_pm.
Proof.
  intros s r s' _ H. injection H as _ <-. split; [apply same_frame_refl|].
  exists []. split; [symmetry; apply app_nil_r|constructor].
Qed.

Lemma keeps_put_pm T P p : keeps T P (put_pm p).
Proof.
  intros s r s' _ H. injection H as _ <-. split; [repeat split|].
  exists []. split; [symmetry; apply app_nil_r|constructor].
Qed.

Lemma keeps_pm_call T (P : event -> Prop) e f : P e -> keeps T P (pm_call e f).
Proof.
  intros He. unfold pm_call. apply keeps_bind; [apply keeps_get_pm|].
  intros p. apply keeps_bind; [apply keeps_put_pm|].
  intros _. apply keeps_emit. exact He.
Qed.

Lemma keeps_modify T P (f : WslinkHandler -> WslinkHandler) :
  (forall h, serverProtocol (f h) = serverProtocol h /\
             functionMap (f h) = functionMap h /\
             connections (f h) = connections h /\
             handler_secret (f h) = handler_secret h) ->
  keeps T P (modify_handler f).
Proof.
  intros Hf s r s' _ H. injection H as _ <-. split; [apply Hf|].
  exists []. split; [symmetry; apply app_nil_r|constructor].
Qed.

Lemma keeps_call T P o func args kwargs : keeps T P (call o func args kwargs).
Proof.
  intros s r s' _ H. unfold call in H.
  destruct (func o args kwargs (pm s)) as [r0 p]. injection H as _ <-.
  split; [repeat split|].
  exists []. split; [symmetry; apply app_nil_r|constructor].
Qed.

Lemma keeps_sockets {B} T ok client_id (k : list ws -> M B) :
  sockets_ok T ok client_id ->
  (forall wss, Forall ok wss -> keeps T (frames_to ok) (k wss)) ->
  keeps T (frames_to ok) (bind (websockets_for client_id) k).
Proof.
  intros Hs Hk s r s' HT H. unfold bind in H.
  destruct (websockets_for client_id s) as [[wss|e] s1] eqn:E.
  - assert (Hok : Forall ok wss) by apply (Hs s wss s1 HT E).
    assert (Hs1 : s1 = s).
    { unfold websockets_for, bind, get_handler in E.
      destruct client_id as [c|];
        [destruct (negb (c =? "")%string);
         [destruct (ws_lookup (connections (handler s)) c)|]|];
        cbv [ret raise] in E; congruence. }
    subst s1. apply (Hk wss Hok s r s' HT H).
  - assert (Hs1 : s1 = s).
    { unfold websockets_for, bind, get_handler in E.
      destruct client_id as [c|];
        [destruct (negb (c =? "")%string);
         [destruct (ws_lookup (connections (handler s)) c)|]|];
        cbv [ret raise] in E; congruence. }
    subst s1. injection H as <- <-. split; [apply same_frame_refl|].
    exists []. split; [symmetry; apply app_nil_r|constructor].
Qed.

Lemma keeps_send_all T ok wss text :
  Forall ok wss ->
  keeps T (frames_to ok) (for_each wss (fun w => emit (send_str w text))).
Proof.
  intros Hok. apply keeps_for_each. intros w Hw. apply keeps_emit.
  apply (proj1 (Forall_forall ok wss) Hok w Hw).
Qed.

Lemma keeps_sendWrappedError T ok rpcid code message data client_id :
  sockets_ok T ok client_id ->
  keeps T (frames_to ok) (sendWrappedError rpcid code message data client_id).
Proof.
  intros Hs. unfold sendWrappedError.
  destruct (json_dumps (error_wrapper rpcid code message data)) as [encMsg|].
  - apply (keeps_sockets T ok client_id _ Hs). intros wss Hok.
    apply keeps_send_all. exact Hok.
  - apply keeps_raise.
Qed.

Lemma keeps_send_attachments T ok attachments encMsg wss :
  Forall ok wss ->
  forall keys found,
    keeps T (frames_to ok) (send_attachments attachments keys encMsg wss found).
Proof.
  intros Hok. induction keys as [|key rest IH]; intros found.
  - apply keeps_ret.
  - rewrite send_attachments_cons. destruct (contains key encMsg); [|apply IH].
    cbv zeta. apply keeps_bind; [apply keeps_pm_call; exact I|]. intros _.
    destruct (json_dumps (attachment_header key)) as [json_header|];
      [|apply keeps_raise].
    apply keeps_bind.
    + unfold send_pair. apply keeps_for_each. intros w Hw.
      assert (Hw' : ok w) by apply (proj1 (Forall_forall ok wss) Hok w Hw).
      apply keeps_bind; [apply keeps_emit; exact Hw'|]. intros _.
      destruct (blob_of attachments key); [apply keeps_emit; exact Hw'|apply keeps_raise].
    + intros _. apply keeps_bind; [apply keeps_pm_call; exact I|].
      intros _. apply IH.
Qed.

Lemma keeps_sendWrappedMessage env T ok rpcid content method client_id :
  sockets_ok T ok client_id ->
  keeps T (frames_to ok) (sendWrappedMessage env rpcid content method client_id).
Proof.
  intros Hs. unfold sendWrappedMessage.
  destruct (json_dumps (result_wrapper rpcid content)) as [encMsg|].
  - apply (keeps_sockets T ok client_id _ Hs). intros wss Hok.
    apply keeps_bind; [apply keeps_get_pm|]. intros p.
    apply keeps_bind.
    + destruct (getAttachmentMap p); [apply keeps_ret|].
      apply keeps_bind; [apply keeps_send_attachments; exact Hok|].
      intros found. apply keeps_pm_call. exact I.
    + intros _. apply keeps_send_all. exact Hok.
  - apply keeps_sendWrappedError. exact Hs.
Qed.

Lemma keeps_hello_test T P args : keeps T P (hello_test args).
Proof.
  unfold hello_test. destruct args as [|a0 rest]; [apply keeps_ret|].
  destruct (negb (truthy a0)); [apply keeps_ret|].
  destruct a0; try apply keeps_ret.
  destruct (dict_get d "secret"); [|apply keeps_ret].
  apply keeps_bind; [apply keeps_get_handler|]. intros h.
  destruct (serverProtocol h); [apply keeps_ret|apply keeps_raise].
Qed.

Lemma keeps_handleSystemMessage env T ok rpcid methodName args c :
  sockets_ok T ok (Some c) ->
  keeps T (frames_to ok) (handleSystemMessage env rpcid methodName args c).
Proof.
  intros Hs. unfold handleSystemMessage.
  destruct rpcid; try apply keeps_raise.
  destruct (before_colon s =? "system")%string; [|apply keeps_ret].
  apply keeps_bind; [|intros _; apply keeps_ret].
  destruct (str_eq methodName "wslink.hello").
  - apply keeps_bind; [apply keeps_hello_test|]. intros [|].
    + apply keeps_sendWrappedMessage. exact Hs.
    + apply keeps_sendWrappedError. exact Hs.
  - apply keeps_sendWrappedError. exact Hs.
Qed.

Lemma keeps_run_findAttachments T P o : keeps T P (run_findAttachments o).
Proof.
  unfold run_findAttachments. apply keeps_bind; [apply keeps_get_handler|].
  intros h. destruct (findAttachments o (attachmentsReceived h)) as [o' received].
  apply keeps_bind; [|intros _; apply keeps_ret].
  apply keeps_modify. intros h0. repeat split.
Qed.

Lemma keeps_invoke env T ok rpcid methodName o func args kwargs c :
  sockets_ok T ok (Some c) ->
  keeps T (frames_to ok) (invoke env rpcid methodName o func args kwargs c).
Proof.
  intros Hs. unfold invoke.
  apply keeps_try; [|intros e; apply keeps_sendWrappedError; exact Hs].
  apply keeps_bind; [apply keeps_run_findAttachments|]. intros args'.
  apply keeps_bind; [apply keeps_run_findAttachments|]. intros kwargs'.
  destruct args'; try apply keeps_raise.
  destruct kwargs'; try apply keeps_raise.
  apply keeps_try; [|intros e; apply keeps_sendWrappedError; exact Hs].
  apply keeps_bind; [apply keeps_call|]. intros results.
  apply keeps_sendWrappedMessage. exact Hs.
Qed.

Lemma keeps_dispatch_request env T ok rpcid methodName args kwargs c :
  sockets_ok T ok (Some c) ->
  keeps T (frames_to ok) (dispatch_request env rpcid methodName args kwargs c).
Proof.
  intros Hs. unfold dispatch_request.
  apply keeps_bind; [apply keeps_handleSystemMessage; exact Hs|].
  intros [|]; [apply keeps_ret|].
  destruct (negb (hashable methodName)); [apply keeps_raise|].
  apply keeps_bind; [apply keeps_get_handler|]. intros h.
  destruct (fm_find (functionMap h) methodName) as [[o func]|].
  - apply keeps_invoke. exact Hs.
  - apply keeps_sendWrappedError. exact Hs.
Qed.

Lemma keeps_queue_append T P k : keeps T P (queue_append k).
Proof.
  unfold queue_append. apply keeps_bind; [apply keeps_get_handler|].
  intros h. apply keeps_modify. intros h0. repeat split.
Qed.

Lemma keeps_dispatch_dict env T ok d c :
  sockets_ok T ok (Some c) ->
  keeps T (frames_to ok) (dispatch_dict env d c).
Proof.
  intros Hs. unfold dispatch_dict.
  destruct (negb (dict_has d "id")).
  - destruct (dict_get d "method") as [method|]; [|apply keeps_ret].
    destruct (str_eq method "wslink.binary.attachment"); [|apply keeps_ret].
    destruct (dict_get d "args") as [[| | | | |keys|]|]; try apply keeps_ret.
    apply keeps_for_each. intros k _. apply keeps_queue_append.
  - destruct (dict_get d "wslink"); [|apply keeps_raise].
    destruct (dict_get d "id"); [|apply keeps_raise].
    destruct (dict_get d "method"); [|apply keeps_raise].
    apply keeps_dispatch_request. exact Hs.
Qed.

Lemma keeps_onMessage env T ok msg c :
  sockets_ok T ok (Some c) ->
  keeps T (frames_to ok) (onMessage env msg c).
Proof.
  intros Hs. unfold onMessage. destruct msg as [payload|payload].
  - apply keeps_try; [|intros e; apply keeps_ret].
    apply keeps_bind.
    + unfold pop_queue. apply keeps_bind; [apply keeps_get_handler|].
      intros h. destruct (attachmentsRecvQueue h); [apply keeps_raise|].
      apply keeps_bind; [|intros _; apply keeps_ret].
      apply keeps_modify. intros h0. repeat split.
    + intros key. unfold store_received.
      destruct (hashable key); [|apply keeps_raise].
      apply keeps_bind; [apply keeps_get_handler|]. intros h.
      apply keeps_modify. intros h0. repeat split.
  - destruct (json_loads env payload) as [rpc|]; [|apply keeps_raise].
    unfold dispatch. destruct rpc as [| b | z | str | b | l | d];
      try apply keeps_raise.
    + destruct (contains "id" str); apply keeps_raise.
    + destruct (existsb (key_eqb (VStr "id")) l); apply keeps_raise.
    + apply keeps_dispatch_dict. exact Hs.
Qed.

Lemma sockets_ok_any T client_id : sockets_ok T (fun _ => True) client_id.
Proof.
  intros s wss s' _ _. apply Forall_forall. intros w _. exact I.
Qed.

Lemma sockets_ok_client T c :
  c <> "" -> sockets_ok T (fun w => ws_lookup T c = Some w) (Some c).
Proof.
  intros Hc s wss s' HT H. unfold websockets_for, bind, get_handler in H.
  destruct (String.eqb_spec c ""); [contradiction|]. cbn [negb] in H.
  rewrite HT in H. destruct (ws_lookup T c) as [w|] eqn:E.
  - injection H as <- _. repeat constructor.
  - discriminate.
Qed.

(** X3: whatever the frame and whatever the outcome, [onMessage] leaves
    the server protocol, the function map, the connection table and the
    secret of the handler as they were; it never closes a socket, and the
    log of the transport only grows. *)
Theorem X3_onMessage_frame env msg c s :
  same_frame s (snd (onMessage env msg c s)) /\
  exists evs,
    trace (snd (onMessage env msg c s)) = (trace s ++ evs)%list /\
    Forall (frames_to (fun _ => True)) evs.
Proof.
  destruct (onMessage env msg c s) as [r s'] eqn:E. cbn [snd].
  apply (keeps_onMessage env (connections (handler s)) (fun _ => True) msg c
           (sockets_ok_any _ _) s r s' eq_refl E).
Qed.

(** X4: every frame that [onMessage] writes for a client goes to the
    socket that the connection table gives for this client, and to no
    other socket; when the table has no such client nothing is
    written. *)
Theorem X4_replies_to_sender env msg c s :
  c <> "" ->
  exists evs,
    trace (snd (onMessage env msg c s)) = (trace s ++ evs)%list /\
    Forall (frames_to (fun w => ws_lookup (connections (handler s)) c = Some w)) evs.
Proof.
  intros Hc. destruct (onMessage env msg c s) as [r s'] eqn:E. cbn [snd].
  apply (keeps_onMessage env (connections (handler s)) _ msg c
           (sockets_ok_client _ c Hc) s r s' eq_refl E).
Qed.

(** ** Messages without an id *)

Lemma for_each_queue_append keys : forall s,
  for_each keys queue_append s =
    (Ok tt,
     {| handler := set_attachmentsRecvQueue
                     (attachmentsRecvQueue (handler s) ++ keys) (handler s);
        pm := pm s; trace := trace s |}).
Proof.
  induction keys as [|k r IH]; intros s.
  - cbn [for_each]. unfold ret. rewrite app_nil_r.
    destruct s as [[sp fm ar aq co hs] p t]. reflexivity.
  - cbn [for_each]. unfold bind at 1. unfold queue_append at 1.
    cbv beta iota delta [bind get_handler modify_handler].
    rewrite IH. cbn [handler pm trace attachmentsRecvQueue set_attachmentsRecvQueue].
    rewrite <- app_assoc. reflexivity.
Qed.

(** X5: a decoded message without [id] is never answered.  [onMessage]
    returns normally, writes no frame and leaves the publish manager and
    the received attachments as they are; the queue of expected
    attachments grows by the elements of [args], in order, when the
    message is an attachment header with a list as [args], and stays as
    it is for any other message. *)
Theorem X5_no_id_no_reply env payload d c s :
  json_loads env payload = Some (VDict d) ->
  dict_has d "id" = false ->
  onMessage env (TEXT payload) c s =
    (Ok tt,
     {| handler := set_attachmentsRecvQueue
                     (attachmentsRecvQueue (handler s) ++ header_keys d) (handler s);
        pm := pm s; trace := trace s |}).
Proof.
  intros Hl Hid. unfold onMessage. rewrite Hl. unfold dispatch, dispatch_dict.
  rewrite Hid. cbn [negb]. unfold header_keys.
  assert (Hnil : (Ok tt, s) =
    (Ok tt,
     {| handler := set_attachmentsRecvQueue
                     (attachmentsRecvQueue (handler s) ++ []) (handler s);
        pm := pm s; trace := trace s |})).
  { rewrite app_nil_r. destruct s as [[sp fm ar aq co hs] p t]. reflexivity. }
  destruct (dict_get d "method") as [method|]; [|exact Hnil].
  destruct (str_eq method "wslink.binary.attachment"); [|exact Hnil].
  destruct (dict_get d "args") as [[| | | | |keys|]|]; try exact Hnil.
  apply for_each_queue_append.
Qed.

(** ** Attachments, frame by frame *)

Lemma recv_get_set_other m k k' b :
  k <> k' ->
  recv_get (recv_set m (VStr k) b) (VStr k') = recv_get m (VStr k').
Proof.
  intros Hne. induction m as [|[k0 b0] r IH]; simpl.
  - destruct (String.eqb_spec k k'); [contradiction|reflexivity].
  - destruct (key_eqb k0 (VStr k)) eqn:E; simpl.
    + apply key_eqb_str in E. subst k0. simpl.
      destruct (String.eqb_spec k k'); [contradiction|reflexivity].
    + destruct (key_eqb k0 (VStr k')); [reflexivity|exact IH].
Qed.

Lemma recv_get_del_other m k k' :
  k <> k' ->
  recv_get (recv_del m (VStr k)) (VStr k') = recv_get m (VStr k').
Proof.
  intros Hne. induction m as [|[k0 b0] r IH]; simpl; [reflexivity|].
  destruct (key_eqb k0 (VStr k)) eqn:E; simpl.
  - apply key_eqb_str in E. subst k0. simpl.
    destruct (String.eqb_spec k k'); [contradiction|reflexivity].
  - destruct (key_eqb k0 (VStr k')); [reflexivity|exact IH].
Qed.

Lemma binary_frame_stored env b c s k rest :
  attachmentsRecvQueue (handler s) = VStr k :: rest ->
  onMessage env (BINARY b) c s =
    (Ok tt,
     {| handler := set_attachmentsReceived
                     (recv_set (attachmentsReceived (handler s)) (VStr k) b)
                     (set_attachmentsRecvQueue rest (handler s));
        pm := pm s; trace := trace s |}).
Proof.
  intros Hq. unfold onMessage, try_except, bind, pop_queue, bind, get_handler.
  rewrite Hq. reflexivity.
Qed.

Lemma run_messages_cons env msg msgs c s :
  run_messages env (msg :: msgs) c s =
  match onMessage env msg c s with
  | (Ok _, s') => run_messages env msgs c s'
  | (Raise e, s') => (Raise e, s')
  end.
Proof.
  unfold run_messages. cbn [for_each]. unfold bind.
  destruct (onMessage env msg c s) as [[[]|e] s']; reflexivity.
Qed.

Lemma firstn_in {A} (x : A) n : forall l, In x (firstn n l) -> In x l.
Proof.
  induction n as [|n IH]; intros l H; [destruct H|].
  destruct l as [|y r]; [destruct H|].
  destruct H as [->|H]; [left; reflexivity|right; apply IH; exact H].
Qed.

(** Binary frames meet the keys of the queue first in, first out. *)
Lemma binary_frames_paired env c : forall bs ks rest s,
  (List.length bs <= List.length ks)%nat ->
  NoDup ks ->
  attachmentsRecvQueue (handler s) = (map VStr ks ++ rest)%list ->
  exists received,
    run_messages env (map BINARY bs) c s =
      (Ok tt,
       {| handler := set_attachmentsReceived received
                       (set_attachmentsRecvQueue
                          (map VStr (skipn (List.length bs) ks) ++ rest) (handler s));
          pm := pm s; trace := trace s |}) /\
    (forall i k b,
       nth_error ks i = Some k -> nth_error bs i = Some b ->
       recv_get received (VStr k) = Some b) /\
    (forall k, ~ In k (firstn (List.length bs) ks) ->
       recv_get received (VStr k) = recv_get (attachmentsReceived (handler s)) (VStr k)).
Proof.
  induction bs as [|b bs IH]; intros ks rest s Hlen Hnd Hq.
  - exists (attachmentsReceived (handler s)). split; [|split].
    + cbn [map List.length skipn]. unfold run_messages. cbn [for_each]. unfold ret.
      rewrite <- Hq. destruct s as [[sp fm ar aq co hs] p t]. reflexivity.
    + intros i k b _ H. destruct i; discriminate.
    + intros k _. reflexivity.
  - destruct ks as [|k ks]; [cbn in Hlen; lia|].
    cbn [map List.length skipn]. rewrite run_messages_cons.
    cbn [map app] in Hq.
    rewrite (binary_frame_stored env b c s k _ Hq).
    cbn [List.length] in Hlen. apply le_S_n in Hlen.
    inversion Hnd as [|? ? Hk Hnd']; subst.
    set (s1 := {| handler := set_attachmentsReceived
                               (recv_set (attachmentsReceived (handler s)) (VStr k) b)
                               (set_attachmentsRecvQueue (map VStr ks ++ rest) (handler s));
                  pm := pm s; trace := trace s |}).
    destruct (IH ks rest s1 Hlen Hnd' eq_refl) as [received [Hrun [Hget Hother]]].
    exists received. split; [exact Hrun|]. split.
    + intros i k0 b0 Hk0 Hb0. destruct i as [|i].
      * cbn in Hk0, Hb0. injection Hk0 as <-. injection Hb0 as <-.
        rewrite Hother.
        -- cbn [s1 handler attachmentsReceived set_attachmentsReceived].
           apply recv_get_set. reflexivity.
        -- intros Hin. apply Hk. apply (firstn_in _ _ _ Hin).
      * apply (Hget i k0 b0 Hk0 Hb0).
    + intros k0 Hk0. cbn [firstn] in Hk0.
      rewrite Hother by (intros H; apply Hk0; right; exact H).
      cbn [s1 handler attachmentsReceived set_attachmentsReceived].
      apply recv_get_set_other. intros ->. apply Hk0. left. reflexivity.
Qed.

(** X6: binary frames are paired with the announced keys first in, first
    out.  When the queue starts with distinct string keys, each of the
    next binary frames is recorded under the key at its position, the
    keys used leave the queue, nothing is written or raised, and the
    blobs under the other string keys stay as they were. *)
Theorem X6_binary_frames_fifo env c bs ks rest s :
  (List.length bs <= List.length ks)%nat ->
  NoDup ks ->
  attachmentsRecvQueue (handler s) = (map VStr ks ++ rest)%list ->
  exists received,
    run_messages env (map BINARY bs) c s =
      (Ok tt,
       {| handler := set_attachmentsReceived received
                       (set_attachmentsRecvQueue
                          (map VStr (skipn (List.length bs) ks) ++ rest) (handler s));
          pm := pm s; trace := trace s |}) /\
    (forall i k b,
       nth_error ks i = Some k -> nth_error bs i = Some b ->
       recv_get received (VStr k) = Some b) /\
    (forall k, ~ In k (firstn (List.length bs) ks) ->
       recv_get received (VStr k) = recv_get (attachmentsReceived (handler s)) (VStr k)).
Proof. apply binary_frames_paired. Qed.

Lemma findAttachments_cons v r R v' R1 r' R2 :
  findAttachments v R = (v', R1) ->
  findAttachments (VList r) R1 = (VList r', R2) ->
  findAttachments (VList (v :: r)) R = (VList (v' :: r'), R2).
Proof.
  intros H1 H2. simpl in *. rewrite H1.
  match goal with
  | H : (let (_, _) := ?x in _) = _ |- _ => destruct x as [l0 R0]
  end.
  injection H2 as -> ->. reflexivity.
Qed.

(** Placeholders that are all there are all replaced. *)
Lemma findAttachments_placeholders : forall ks bs R,
  NoDup ks ->
  Forall (fun k => is_placeholder k = true) ks ->
  Forall2 (fun k b => recv_get R (VStr k) = Some b) ks bs ->
  exists R',
    findAttachments (VList (map VStr ks)) R = (VList (map VBytes bs), R') /\
    (forall k, ~ In k ks -> recv_get R' (VStr k) = recv_get R (VStr k)).
Proof.
  induction ks as [|k ks IH]; intros bs R Hnd Hph Hall.
  - inversion Hall; subst. exists R. split; [reflexivity|]. intros k _. reflexivity.
  - inversion Hall as [|? b ? bs' Hb Hall']; subst.
    inversion Hnd as [|? ? Hk Hnd']; subst.
    inversion Hph as [|? ? Hpk Hph']; subst.
    assert (Hrest : Forall2 (fun k0 b0 =>
                               recv_get (recv_del R (VStr k)) (VStr k0) = Some b0)
                      ks bs').
    { clear IH Hnd' Hph' Hall Hnd Hph.
      induction Hall' as [|k0 b0 ks0 bs0 H0 Hr IHr]; constructor.
      - rewrite recv_get_del_other; [exact H0|].
        intros ->. apply Hk. left. reflexivity.
      - apply IHr. intros H. apply Hk. right. exact H. }
    destruct (IH bs' (recv_del R (VStr k)) Hnd' Hph' Hrest) as [R' [Hrun Hother]].
    exists R'. split.
    + cbn [map]. apply (findAttachments_cons (VStr k) (map VStr ks) R
                          (VBytes b) (recv_del R (VStr k)) (map VBytes bs') R');
        [|exact Hrun].
      simpl. rewrite Hpk, Hb. reflexivity.
    + intros k0 Hk0. rewrite Hother by (intros H; apply Hk0; right; exact H).
      apply recv_get_del_other. intros ->. apply Hk0. left. reflexivity.
Qed.

Lemma nth_Forall2 {A B} (P : A -> B -> Prop) : forall (l : list A) (l' : list B),
  List.length l = List.length l' ->
  (forall i a b, nth_error l i = Some a -> nth_error l' i = Some b -> P a b) ->
  Forall2 P l l'.
Proof.
  induction l as [|a l IH]; intros [|b l'] Hlen H; try discriminate; constructor.
  - apply (H O a b); reflexivity.
  - apply IH; [cbn in Hlen; congruence|].
    intros i a0 b0 Ha Hb. apply (H (S i) a0 b0); assumption.
Qed.

(** X7: the attachments of a request come back as bytes.  When the queue
    holds distinct placeholder keys and as many binary frames arrive,
    the substitution run on the list of these placeholders gives the
    list of the payloads, in the order of the keys; the queue is then
    back to what followed the keys, and nothing was written. *)
Theorem X7_attachments_round_trip env c bs ks rest s :
  List.length bs = List.length ks ->
  NoDup ks ->
  Forall (fun k => is_placeholder k = true) ks ->
  attachmentsRecvQueue (handler s) = (map VStr ks ++ rest)%list ->
  exists s',
    (run_messages env (map BINARY bs) c ;;
     run_findAttachments (VList (map VStr ks))) s =
      (Ok (VList (map VBytes bs)), s') /\
    attachmentsRecvQueue (handler s') = rest /\
    pm s' = pm s /\ trace s' = trace s.
Proof.
  intros Hlen Hnd Hph Hq.
  assert (Hle : (List.length bs <= List.length ks)%nat) by lia.
  destruct (binary_frames_paired env c bs ks rest s Hle Hnd Hq)
    as [received [Hrun [Hget _]]].
  assert (Hall : Forall2 (fun k b => recv_get received (VStr k) = Some b) ks bs).
  { apply nth_Forall2; [symmetry; exact Hlen|exact Hget]. }
  destruct (findAttachments_placeholders ks bs received Hnd Hph Hall)
    as [R' [Hfind _]].
  eexists. split.
  - unfold bind at 1. rewrite Hrun. unfold run_findAttachments, bind, get_handler.
    cbn [handler attachmentsReceived set_attachmentsReceived]. rewrite Hfind.
    reflexivity.
  - cbn [handler pm trace attachmentsRecvQueue set_attachmentsReceived
         set_attachmentsRecvQueue].
    rewrite Hlen, skipn_all. split; [reflexivity|]. split; reflexivity.
Qed.

(** ** From the sender to the receiver *)

Lemma frames_on_app w evs evs' :
  frames_on w (evs ++ evs') = (frames_on w evs ++ frames_on w evs')%list.
Proof.
  induction evs as [|e r IH]; [reflexivity|].
  destruct e; cbn [app frames_on]; try exact IH;
    destruct (Nat.eqb w0 w); cbn [app]; rewrite IH; reflexivity.
Qed.

Lemma frames_on_reply p w encMsg :
  frames_on w (reply_events p w encMsg) =
  (pair_frames p (matched_keys p encMsg) ++ [TEXT encMsg])%list.
Proof.
  unfold reply_events. rewrite !frames_on_app. f_equal; [|].
  - unfold pair_frames.
    induction (matched_keys p encMsg) as [|k r IH]; [reflexivity|].
    cbn [flat_map]. rewrite frames_on_app, IH.
    unfold pair_events. cbn [frames_on]. rewrite Nat.eqb_refl. reflexivity.
  - destruct (attachmentMap p); cbn [frames_on app]; rewrite Nat.eqb_refl;
      reflexivity.
Qed.

Lemma header_received env key c s :
  json_loads env (wire (attachment_header key)) = Some (attachment_header key) ->
  onMessage env (TEXT (wire (attachment_header key))) c s =
    (Ok tt,
     {| handler := set_attachmentsRecvQueue
                     (attachmentsRecvQueue (handler s) ++ [VStr key]) (handler s);
        pm := pm s; trace := trace s |}).
Proof.
  intros Hl. unfold onMessage. rewrite Hl. unfold attachment_header, dispatch.
  unfold dispatch_dict. cbn [dict_has dict_get String.eqb Ascii.eqb Bool.eqb negb
                             str_eq].
  apply (for_each_queue_append [VStr key]).
Qed.

(** The pairs of a sender, read by a handler whose queue is empty. *)
Lemma pairs_received env p c : forall keys r,
  (forall k, In k keys ->
     json_loads env (wire (attachment_header k)) = Some (attachment_header k)) ->
  (forall k, In k keys -> exists b, blob_of (getAttachmentMap p) k = Some b) ->
  attachmentsRecvQueue (handler r) = [] ->
  exists received,
    run_messages env (pair_frames p keys) c r =
      (Ok tt,
       {| handler := set_attachmentsReceived received (handler r);
          pm := pm r; trace := trace r |}) /\
    (forall k, In k keys ->
       recv_get received (VStr k) = blob_of (getAttachmentMap p) k) /\
    (forall k, ~ In k keys ->
       recv_get received (VStr k) = recv_get (attachmentsReceived (handler r)) (VStr k)).
Proof.
  induction keys as [|key keys IH]; intros r Hdec Hblob Hq.
  - exists (attachmentsReceived (handler r)). split; [|split].
    + unfold run_messages, pair_frames. cbn [flat_map for_each]. unfold ret.
      destruct r as [[sp fm ar aq co hs] p0 t]. reflexivity.
    + intros k [].
    + intros k _. reflexivity.
  - destruct (Hblob key (or_introl eq_refl)) as [b Hb].
    unfold pair_frames. cbn [flat_map app]. fold (pair_frames p keys).
    rewrite Hb. rewrite run_messages_cons.
    rewrite (header_received env key c r (Hdec key (or_introl eq_refl))).
    rewrite Hq. cbn [app]. rewrite run_messages_cons.
    rewrite (binary_frame_stored env b c
               {| handler := set_attachmentsRecvQueue [VStr key] (handler r);
                  pm := pm r; trace := trace r |} key [] eq_refl).
    cbn [handler pm trace attachmentsReceived set_attachmentsRecvQueue].
    set (r1 := {| handler := set_attachmentsReceived
                               (recv_set (attachmentsReceived (handler r)) (VStr key) b)
                               (handler r);
                  pm := pm r; trace := trace r |}).
    match goal with
    | |- context [run_messages env (pair_frames p keys) c ?st] =>
        assert (Hsame : st = r1);
          [unfold r1; destruct r as [[sp fm ar aq co hs] p0 t]; cbn in Hq;
           subst aq; reflexivity|rewrite Hsame]
    end.
    assert (Hq1 : attachmentsRecvQueue (handler r1) = []) by exact Hq.
    destruct (IH r1 (fun k Hk => Hdec k (or_intror Hk))
                (fun k Hk => Hblob k (or_intror Hk)) Hq1)
      as [received [Hrun [Hget Hother]]].
    exists received. split; [exact Hrun|]. split.
    + intros k [<-|Hk]; [|apply Hget; exact Hk].
      destruct (in_dec string_dec key keys) as [Hin|Hout]; [apply Hget; exact Hin|].
      rewrite (Hother key Hout). rewrite Hb.
      cbn [r1 handler attachmentsReceived set_attachmentsReceived].
      apply recv_get_set. reflexivity.
    + intros k Hk. rewrite Hother by (intros H; apply Hk; right; exact H).
      cbn [r1 handler attachmentsReceived set_attachmentsReceived].
      apply recv_get_set_other. intros ->. apply Hk. left. reflexivity.
Qed.

Lemma matched_keys_in p encMsg k :
  In k (matched_keys p encMsg) -> In k (map fst (attachmentMap p)).
Proof. unfold matched_keys. intros H. apply filter_In in H. tauto. Qed.

(** X8: what [sendWrappedMessage] puts on the socket of a client is a
    header and a binary frame for each key found, then the JSON text;
    and a handler with an empty queue that reads these pairs, with a
    decoder that gives the headers back, ends with an empty queue and
    with each blob of the sender recorded under its key. *)
Theorem X8_sent_pairs_are_received env rpcid content method c w s encMsg env' c' r :
  json_dumps (result_wrapper rpcid content) = Some encMsg ->
  c <> "" ->
  ws_lookup (connections (handler s)) c = Some w ->
  (forall k, In k (matched_keys (pm s) encMsg) ->
     json_loads env' (wire (attachment_header k)) = Some (attachment_header k)) ->
  attachmentsRecvQueue (handler r) = [] ->
  exists evs received,
    trace (snd (sendWrappedMessage env rpcid content method (Some c) s)) =
      (trace s ++ evs)%list /\
    frames_on w evs =
      (pair_frames (pm s) (matched_keys (pm s) encMsg) ++ [TEXT encMsg])%list /\
    run_messages env' (pair_frames (pm s) (matched_keys (pm s) encMsg)) c' r =
      (Ok tt,
       {| handler := set_attachmentsReceived received (handler r);
          pm := pm r; trace := trace r |}) /\
    (forall k, In k (matched_keys (pm s) encMsg) ->
       exists b, blob_of (getAttachmentMap (pm s)) k = Some b /\
                 recv_get received (VStr k) = Some b).
Proof.
  intros Hd Hc Hw Hdec Hq.
  assert (Hblob : forall k, In k (matched_keys (pm s) encMsg) ->
                    exists b, blob_of (getAttachmentMap (pm s)) k = Some b).
  { intros k Hk. apply blob_of_snapshot. apply (matched_keys_in _ _ _ Hk). }
  destruct (pairs_received env' (pm s) c' (matched_keys (pm s) encMsg) r Hdec Hblob Hq)
    as [received [Hrun [Hget _]]].
  exists (reply_events (pm s) w encMsg), received.
  rewrite (sendWrappedMessage_run env rpcid content method c w s encMsg Hd Hc Hw).
  split; [reflexivity|]. split; [apply frames_on_reply|]. split; [exact Hrun|].
  intros k Hk. destruct (Hblob k Hk) as [b Hb]. exists b.
  split; [exact Hb|]. rewrite (Hget k Hk). exact Hb.
Qed.

(** ** The outcome of a registered method *)

Lemma unserializable_dumps (v : value) :
  serializable v = false -> json_dumps v = None.
Proof.
  induction v using value_rect'; simpl; intros Hs; try discriminate; auto.
  - match goal with
    | |- match ?items l with _ => _ end = None =>
        assert (Hitems : items l = None)
    end.
    { induction H as [|x r Hx Hr IH]; simpl in *; [discriminate|].
      destruct (serializable x) eqn:Ex.
      - simpl in Hs. rewrite (IH Hs). destruct (json_dumps x); reflexivity.
      - rewrite (Hx eq_refl). reflexivity. }
    rewrite Hitems. reflexivity.
  - match goal with
    | |- match ?items d with _ => _ end = None =>
        assert (Hitems : items d = None)
    end.
    { induction H as [|[k x] r Hx Hr IH]; simpl in *; [discriminate|].
      destruct (serializable x) eqn:Ex.
      - simpl in Hs. rewrite (IH Hs). destruct (json_dumps x); reflexivity.
      - rewrite (Hx eq_refl). reflexivity. }
    rewrite Hitems. reflexivity.
Qed.

Lemma result_wrapper_dumps id results :
  json_dumps (result_wrapper (VStr id) results) =
  if serializable results
  then Some (wire (result_wrapper (VStr id) results))
  else None.
Proof.
  destruct (serializable results) eqn:E.
  - apply dumps_wire. unfold result_wrapper. simpl. rewrite E. reflexivity.
  - apply unserializable_dumps. unfold result_wrapper. simpl. rewrite E. reflexivity.
Qed.

(** [invoke], once the arguments are substituted and the method has
    answered. *)
Lemma invoke_steps env rpcid methodName o func args kwargs c s a k received r p1 :
  substitute_args args kwargs (attachmentsReceived (handler s)) = (a, k, received) ->
  func o a k (pm s) = (r, p1) ->
  invoke env rpcid methodName o func args kwargs c s =
  try_except
    (try_except
       (match r with
        | Ok results => sendWrappedMessage env rpcid results methodName (Some c)
        | Raise e => raise e
        end)
       (fun e_inst =>
          sendWrappedError rpcid (EXCEPTION_ERROR env) "Exception raised"
            (exception_data methodName e_inst) (Some c)))
    (fun e =>
       sendWrappedError rpcid (EXCEPTION_ERROR env) "Exception raised"
         (exception_data methodName e) (Some c))
    {| handler := set_attachmentsReceived received (handler s);
       pm := p1; trace := trace s |}.
Proof.
  unfold substitute_args. intros Hsub Hf.
  destruct (findAttachments_list args (attachmentsReceived (handler s)))
    as [a' [R1 H1]].
  destruct (findAttachments_dict kwargs R1) as [k' [R2 H2]].
  rewrite H1, H2 in Hsub. injection Hsub as <- <- <-.
  unfold invoke. unfold try_except at 1. unfold bind at 1.
  unfold run_findAttachments at 1. cbv beta iota delta [bind get_handler].
  rewrite H1. cbv beta iota delta [modify_handler ret].
  unfold run_findAttachments at 1. cbv beta iota delta [bind get_handler].
  cbn [handler attachmentsReceived set_attachmentsReceived]. rewrite H2.
  cbv beta iota delta [modify_handler ret].
  cbn [handler pm trace].
  unfold try_except at 2. unfold try_except at 1.
  unfold try_except at 1. unfold bind, call. cbn [pm handler trace]. rewrite Hf.
  destruct r as [results|e]; reflexivity.
Qed.


(** X10: when the result of a method cannot be serialized (bytes occur in
    it), the client gets the error [RESULT_SERIALIZE_ERROR], "Method
    result cannot be serialized", with the method name as [data]; no
    attachment frame is sent and the publish manager is left as the
    method left it. *)
Theorem X10_result_not_serializable env id methodName o func args kwargs c w s a k
  received results p1 :
  serializable methodName = true ->
  c <> "" ->
  ws_lookup (connections (handler s)) c = Some w ->
  substitute_args args kwargs (attachmentsReceived (handler s)) = (a, k, received) ->
  func o a k (pm s) = (Ok results, p1) ->
  serializable results = false ->
  invoke env (VStr id) methodName o func args kwargs c s =
    (Ok tt,
     {| handler := set_attachmentsReceived received (handler s);
        pm := p1;
        trace := trace s ++
                 [send_str w
                    (wire (error_wrapper (VStr id) (RESULT_SERIALIZE_ERROR env)
                             "Method result cannot be serialized" methodName))] |}).
Proof.
  intros Hm Hc Hw Hsub Hf Hres.
  rewrite (invoke_steps env (VStr id) methodName o func args kwargs c s a k received
             _ p1 Hsub Hf).
  unfold try_except, sendWrappedMessage.
  rewrite result_wrapper_dumps, Hres.
  set (s1 := {| handler := set_attachmentsReceived received (handler s);
                pm := p1; trace := trace s |}).
  assert (Hw1 : ws_lookup (connections (handler s1)) c = Some w) by exact Hw.
  rewrite (sendWrappedError_run (VStr id) _ _ methodName c w s1 eq_refl Hm Hc Hw1).
  reflexivity.
Qed.

(** X11: when a method returns a result that can be serialized, the
    client gets the attachment pairs of the keys that occur in the text,
    the call of [freeAttachments], and the reply
    [{wslink, id, result}]; the publish manager is the one the method
    left, after [freeAttachments]. *)
Theorem X11_method_returns env id methodName o func args kwargs c w s a k received
  results p1 :
  c <> "" ->
  ws_lookup (connections (handler s)) c = Some w ->
  substitute_args args kwargs (attachmentsReceived (handler s)) = (a, k, received) ->
  func o a k (pm s) = (Ok results, p1) ->
  serializable results = true ->
  invoke env (VStr id) methodName o func args kwargs c s =
    (Ok tt,
     {| handler := set_attachmentsReceived received (handler s);
        pm := pm_after_reply p1 (wire (result_wrapper (VStr id) results));
        trace := trace s ++
                 reply_events p1 w (wire (result_wrapper (VStr id) results)) |}).
Proof.
  intros Hc Hw Hsub Hf Hres.
  rewrite (invoke_steps env (VStr id) methodName o func args kwargs c s a k received
             _ p1 Hsub Hf).
  unfold try_except.
  set (s1 := {| handler := set_attachmentsReceived received (handler s);
                pm := p1; trace := trace s |}).
  assert (Hw1 : ws_lookup (connections (handler s1)) c = Some w) by exact Hw.
  assert (Hd : json_dumps (result_wrapper (VStr id) results) =
               Some (wire (result_wrapper (VStr id) results))).
  { rewrite result_wrapper_dumps, Hres. reflexivity. }
  rewrite (sendWrappedMessage_run env (VStr id) results methodName c w s1 _ Hd Hc Hw1).
  reflexivity.
Qed.

(** ** Unknown clients and broadcasts *)


Lemma websockets_for_all client_id s :
  to_all client_id ->
  websockets_for client_id s = (Ok (map snd (connections (handler s))), s).
Proof.
  intros [->| ->]; reflexivity.
Qed.

Lemma for_each_send wss text : forall s,
  for_each wss (fun w => emit (send_str w text)) s =
    (Ok tt, logged (map (fun w => send_str w text) wss) s).
Proof.
  induction wss as [|w r IH]; intros s.
  - cbn [for_each map]. rewrite logged_nil. reflexivity.
  - cbn [for_each map]. unfold bind, emit at 1. rewrite IH.
    unfold logged. cbn [handler pm trace]. rewrite <- app_assoc. reflexivity.
Qed.


Lemma pm_call_run e f s :
  pm_call e f s =
    (Ok tt, {| handler := handler s; pm := f (pm s); trace := trace s ++ [e] |}).
Proof. reflexivity. Qed.

Lemma send_pair_run attachments key json_header b wss : forall s,
  blob_of attachments key = Some b ->
  send_pair attachments key json_header wss s =
    (Ok tt,
     logged (flat_map (fun w => [send_str w json_header; send_bytes w b]) wss) s).
Proof.
  intros s Hb. unfold send_pair. rewrite Hb. revert s.
  induction wss as [|w r IH]; intros s.
  - cbn [for_each flat_map]. rewrite logged_nil. reflexivity.
  - cbn [for_each flat_map]. unfold bind at 1. unfold bind at 1.
    unfold emit at 1. unfold emit at 1. rewrite IH.
    unfold logged. cbn [handler pm trace app].
    rewrite <- !app_assoc. reflexivity.
Qed.

(** The loop over the keys of the map when the text goes to the sockets
    [wss]. *)
Lemma send_attachments_all encMsg wss : forall keys found s,
  (forall k, In k keys -> In k (map fst (attachmentMap (pm s)))) ->
  send_attachments (getAttachmentMap (pm s)) keys encMsg wss found s =
    (Ok (dedup found (filter (fun k => contains k encMsg) keys)),
     logged (flat_map (broadcast_pair (pm s) wss)
               (filter (fun k => contains k encMsg) keys)) s).
Proof.
  induction keys as [|key rest IH]; intros found s Hin.
  - simpl. rewrite logged_nil. reflexivity.
  - rewrite send_attachments_cons. simpl filter.
    destruct (contains key encMsg) eqn:Hc.
    + cbv zeta. destruct (blob_of_snapshot (pm s) key (Hin key (or_introl eq_refl)))
        as [b Hb].
      rewrite header_dumps.
      set (s1 := logged (broadcast_pair (pm s) wss key) s).
      assert (Hp1 : pm s1 = pm s) by reflexivity.
      assert (Hstep :
        (pm_call (pm_registerAttachment key) (registerAttachment key) ;;
         send_pair (getAttachmentMap (pm s)) key (wire (attachment_header key)) wss ;;
         pm_call (pm_unregisterAttachment key) (unregisterAttachment key) ;;
         send_attachments (getAttachmentMap (pm s)) rest encMsg wss
           (if negb (mem key found) then (found ++ [key])%list else found)) s =
        send_attachments (getAttachmentMap (pm s1)) rest encMsg wss
           (if negb (mem key found) then (found ++ [key])%list else found) s1).
      { cbv beta iota delta [bind pm_call get_pm put_pm emit].
        cbn [handler pm trace].
        rewrite (send_pair_run _ key _ b wss _ Hb).
        unfold logged. cbn [handler pm trace].
        rewrite unregister_register.
        unfold s1, logged, broadcast_pair. cbn [handler pm trace]. rewrite Hb.
        cbn [app]. rewrite <- !app_assoc. reflexivity. }
      rewrite Hstep. rewrite IH.
      * rewrite dedup_step. simpl flat_map. unfold s1.
        rewrite logged_app. reflexivity.
      * intros k Hk. rewrite Hp1. apply Hin. right. exact Hk.
    + apply IH. intros k Hk. apply Hin. right. exact Hk.
Qed.

(** X13: without a client id (or with an empty one) a message goes to
    every socket of the connection table, in the order of the table.
    For each key found the header and the binary frame are written to
    each socket in turn, between the two moves of the reference count;
    then [freeAttachments] is called and the JSON text is written once to
    each socket.  With an empty table no frame is written, and the
    reference counts are still moved and [freeAttachments] still
    called. *)
Theorem X13_broadcast env rpcid content method client_id s encMsg :
  to_all client_id ->
  json_dumps (result_wrapper rpcid content) = Some encMsg ->
  sendWrappedMessage env rpcid content method client_id s =
    (Ok tt,
     {| handler := handler s;
        pm := pm_after_reply (pm s) encMsg;
        trace := trace s ++
                 broadcast_events (pm s) (map snd (connections (handler s))) encMsg |}) /\
  (connections (handler s) = [] ->
   trace (snd (sendWrappedMessage env rpcid content method client_id s)) =
     (trace s
      ++ flat_map (fun key => [pm_registerAttachment key; pm_unregisterAttachment key])
           (matched_keys (pm s) encMsg)
      ++ match attachmentMap (pm s) with
         | [] => []
         | _ :: _ => [pm_freeAttachments (found_keys_of (pm s) encMsg)]
         end)%list).
Proof.
  intros Hall Hd.
  assert (Hrun :
    sendWrappedMessage env rpcid content method client_id s =
    (Ok tt,
     {| handler := handler s;
        pm := pm_after_reply (pm s) encMsg;
        trace := trace s ++
                 broadcast_events (pm s) (map snd (connections (handler s))) encMsg |}));
    [|split; [exact Hrun|]].
  - unfold sendWrappedMessage. rewrite Hd.
    unfold bind at 1. rewrite (websockets_for_all client_id s Hall).
    unfold bind at 1. unfold get_pm at 1.
    unfold broadcast_events, pm_after_reply, found_keys_of, matched_keys.
    destruct (attachmentMap (pm s)) as [|e r] eqn:Hm.
    + unfold getAttachmentMap. rewrite Hm. cbn [map flat_map filter app].
      unfold bind, ret. rewrite for_each_send. unfold logged.
      destruct s; reflexivity.
    + assert (Hne : attachmentMap (pm s) <> []) by (rewrite Hm; discriminate).
      rewrite <- Hm. clear Hm e r.
      rewrite (@match_nonempty _ _ _ _ _ (@snapshot_nonempty (pm s) Hne)).
      unfold bind at 1. unfold bind at 1.
      rewrite snapshot_keys.
      rewrite send_attachments_all by (intros k Hk; exact Hk).
      rewrite pm_call_run.
      rewrite for_each_send. unfold logged. cbn [handler pm trace].
      rewrite <- !app_assoc. reflexivity.
  - intros Hnone. rewrite Hrun. cbn [snd trace]. rewrite Hnone.
    unfold broadcast_events, broadcast_pair. cbn [map flat_map app].
    rewrite app_nil_r. reflexivity.
Qed.

(** ** Stopping the server *)

Lemma stop_server_run a :
  _stop_server a =
    match running a with
    | None =>
        (Ok tt,
         {| timeout := timeout a; handlers := handlers a;
            shutdown_task := shutdown_task a; tasks := tasks a;
            runner_cleaned := true; running := Some true;
            publishManager := publishManager a;
            transport := transport a ++ all_close_events a |})
    | Some b =>
        (Raise InvalidStateError,
         {| timeout := timeout a; handlers := handlers a;
            shutdown_task := shutdown_task a; tasks := tasks a;
            runner_cleaned := true; running := Some b;
            publishManager := publishManager a;
            transport := transport a ++ all_close_events a |})
    end.
Proof.
  unfold _stop_server. rewrite disconnect_all_run.
  cbn [set_runner_cleaned running timeout handlers shutdown_task tasks
       runner_cleaned publishManager transport].
  destruct (running a); reflexivity.
Qed.

(** X16: [_stop_server] closes every socket, cleans the runner up and
    resolves the future, but it neither cancels the shutdown task nor
    clears the slot.  Called again, or run by the shutdown task that
    fires afterwards, it closes the sockets of the table once more and
    raises [InvalidStateError], because the future is already
    resolved. *)
Theorem X16_stop_twice a :
  running a = None ->
  exists a1,
    _stop_server a = (Ok tt, a1) /\
    running a1 = Some true /\
    tasks a1 = tasks a /\ shutdown_task a1 = shutdown_task a /\
    handlers a1 = handlers a /\
    transport a1 = (transport a ++ all_close_events a)%list /\
    (exists a2,
       _stop_server a1 = (Raise InvalidStateError, a2) /\
       transport a2 = (transport a1 ++ all_close_events a)%list) /\
    (forall t, task_pending a t = true ->
       exists a2,
         fire t a1 = (Raise InvalidStateError, a2) /\
         transport a2 = (transport a1 ++ all_close_events a)%list).
Proof.
  intros Hr. rewrite stop_server_run, Hr. eexists. split; [reflexivity|].
  cbn [running tasks shutdown_task handlers transport].
  repeat (split; [reflexivity|]). split.
  - rewrite stop_server_run. cbn [running]. eexists. split; reflexivity.
  - intros t Hp. unfold fire.
    assert (Hp' : forall b p tr,
              task_pending
                {| timeout := timeout a; handlers := handlers a;
                   shutdown_task := shutdown_task a; tasks := tasks a;
                   runner_cleaned := b; running := Some true;
                   publishManager := p; transport := tr |} t = true)
      by (intros; exact Hp).
    rewrite Hp'. rewrite stop_server_run.
    cbn [running set_tasks]. eexists. split; reflexivity.
Qed.

(** ** The function map *)





(** ** The idle shutdown of a server with one route *)

Lemma nth_error_set_status st l : forall t t',
  nth_error (set_status l t st) t' =
  if Nat.eqb t t'
  then match nth_error l t' with
       | Some x => Some {| delay := delay x; status := st |}
       | None => None
       end
  else nth_error l t'.
Proof.
  induction l as [|x r IH]; intros t t'.
  - destruct t; simpl; destruct t'; simpl; try reflexivity;
      destruct (Nat.eqb _ _); reflexivity.
  - destruct t as [|t]; destruct t' as [|t']; simpl; try reflexivity.
    apply IH.
Qed.


Lemma pending_same_tasks a b t :
  tasks b = tasks a -> task_pending b t = task_pending a t.
Proof. intros H. unfold task_pending. rewrite H. reflexivity. Qed.












(** ** One session *)

Lemma ws_lookup_set l c w : ws_lookup (assoc_set l c w) c = Some w.
Proof.
  induction l as [|[k v] r IH]; simpl.
  - rewrite String.eqb_refl. reflexivity.
  - destruct (String.eqb_spec k c) as [->|Hne]; simpl.
    + rewrite String.eqb_refl. reflexivity.
    + destruct (String.eqb_spec k c); [contradiction|exact IH].
Qed.

Lemma assoc_del_set l c (w : ws) :
  ws_lookup l c = None -> assoc_del (assoc_set l c w) c = l.
Proof.
  induction l as [|[k v] r IH]; simpl; intros H.
  - rewrite String.eqb_refl. reflexivity.
  - destruct (String.eqb_spec k c) as [->|Hne]; [discriminate|]. simpl.
    destruct (String.eqb_spec k c); [contradiction|]. rewrite (IH H). reflexivity.
Qed.

Lemma set_status_length st l : forall t,
  List.length (set_status l t st) = List.length l.
Proof.
  induction l as [|x r IH]; intros [|t]; simpl; try reflexivity.
  rewrite IH. reflexivity.
Qed.

Lemma on_handler_frame A route (c : M A) a r a' h :
  handler_lookup (handlers a) route = Some h ->
  keeps (connections h) (frames_to (fun _ => True)) c ->
  on_handler route c a = (r, a') ->
  tasks a' = tasks a /\ shutdown_task a' = shutdown_task a /\
  timeout a' = timeout a /\
  exists h', handler_lookup (handlers a') route = Some h' /\
             connections h' = connections h.
Proof.
  intros Hh Hk H. unfold on_handler in H. rewrite Hh in H.
  destruct (c _) as [r1 s1] eqn:E. injection H as <- <-.
  cbn [tasks shutdown_task timeout handlers].
  repeat (split; [reflexivity|]).
  exists (handler s1). split; [apply (handler_lookup_store _ _ _ _ Hh)|].
  destruct (Hk {| handler := h; pm := publishManager a; trace := transport a |}
              r1 s1 eq_refl E) as [[_ [_ [Hc _]]] _]. exact Hc.
Qed.

Lemma read_loop_frame env route c msgs : forall a r a' h,
  handler_lookup (handlers a) route = Some h ->
  read_loop env route c msgs a = (r, a') ->
  tasks a' = tasks a /\ shutdown_task a' = shutdown_task a /\
  timeout a' = timeout a /\
  exists h', handler_lookup (handlers a') route = Some h' /\
             connections h' = connections h.
Proof.
  induction msgs as [|msg rest IH]; intros a r a' h Hh H.
  - injection H as _ <-. repeat (split; [reflexivity|]). exists h. split; [exact Hh|reflexivity].
  - cbn [read_loop] in H.
    destruct (on_handler route (onMessage env msg c) a) as [r1 a1] eqn:E.
    destruct (on_handler_frame _ route _ a r1 a1 h Hh
                (keeps_onMessage env (connections h) (fun _ => True) msg c
                   (sockets_ok_any _ _)) E)
      as [Ht [Hs [Hto [h1 [Hh1 Hc1]]]]].
    destruct r1 as [u|e].
    + destruct (IH a1 r a' h1 Hh1 H) as [Ht' [Hs' [Hto' [h' [Hh' Hc']]]]].
      split; [congruence|]. split; [congruence|]. split; [congruence|].
      exists h'. split; [exact Hh'|congruence].
    + injection H as _ <-. repeat (split; [assumption|]).
      exists h1. split; assumption.
Qed.

(** X15: a session that ends normally leaves the connection table as it
    found it.  For a client id that is not yet in the table, when
    [handleWsRequest] returns, the table of the handler is the one from
    before the connect; the shutdown task that was in the slot is no
    longer pending; when the table is empty a new task with the
    configured timeout is pending in the slot, and when other clients
    remain the slot is empty. *)
Theorem X15_session_round_trip env route c w msgs a h :
  handler_lookup (handlers a) route = Some h ->
  ws_lookup (connections h) c = None ->
  fst (handleWsRequest env route c w msgs a) = Ok tt ->
  exists h',
    handler_lookup (handlers (snd (handleWsRequest env route c w msgs a))) route
      = Some h' /\
    connections h' = connections h /\
    (forall t, shutdown_task a = Some t -> (t < List.length (tasks a))%nat ->
       task_pending (snd (handleWsRequest env route c w msgs a)) t = false) /\
    (connections h = [] ->
     shutdown_task (snd (handleWsRequest env route c w msgs a))
       = Some (List.length (tasks a)) /\
     nth_error (tasks (snd (handleWsRequest env route c w msgs a)))
               (List.length (tasks a))
       = Some {| delay := timeout a; status := Pending |}) /\
    (connections h <> [] ->
     shutdown_task (snd (handleWsRequest env route c w msgs a)) = None).
Proof.
  intros Hh Hfresh Hok. unfold handleWsRequest in *.
  destruct (handleWsRequest_open_run route c w a h Hh)
    as [a1 [h1 [Hopen [Hs1 [Ht1 [Hh1 Hc1]]]]]].
  rewrite Hopen in *.
  destruct (read_loop env route c msgs a1) as [r2 a2] eqn:Hloop.
  destruct (read_loop_frame env route c msgs a1 r2 a2 h1 Hh1 Hloop)
    as [Ht2 [Hs2 [Hto2 [h2 [Hh2 Hc2]]]]].
  destruct r2 as [u|e]; [|discriminate Hok].
  assert (Hw : ws_lookup (connections h2) c = Some w).
  { rewrite Hc2, Hc1. apply ws_lookup_set. }
  destruct (handleWsRequest_close_run route c a2 h2 w Hh2 Hw)
    as [a3 [Hclose [Hh3 [Hempty Hsome]]]].
  rewrite Hclose. cbn [snd].
  assert (Hdel : assoc_del (connections h2) c = connections h).
  { rewrite Hc2, Hc1. apply assoc_del_set. exact Hfresh. }
  rewrite Hdel in *.
  assert (Hto1 : timeout a1 = timeout a).
  { unfold handleWsRequest_open in Hopen.
    destruct (on_handler route _ a) as [r0 b1] eqn:E1 in Hopen.
    assert (Hb1 : timeout b1 = timeout a).
    { unfold on_handler in E1. rewrite Hh in E1.
      destruct (_ _) as [x y] in E1. injection E1 as _ <-. reflexivity. }
    destruct r0 as [u0|e0]; [|discriminate].
    unfold on_handler in Hopen. 
    destruct (handler_lookup _ route) in Hopen; [|discriminate].
    destruct (onConnect _) as [x y] in Hopen. injection Hopen as _ <-.
    cbn [timeout]. rewrite <- Hb1.
    destruct (shutdown_task b1) as [t|]; [|reflexivity].
    unfold cancel. destruct (task_pending b1 t); reflexivity. }
  assert (Hlen : List.length (tasks a2) = List.length (tasks a)).
  { rewrite Ht2, Ht1. destruct (shutdown_task a) as [t|]; [|reflexivity].
    unfold cancel. destruct (task_pending a t); [|reflexivity].
    cbn [tasks set_tasks]. apply set_status_length. }
  assert (Hold : forall t, shutdown_task a = Some t -> task_pending a2 t = false).
  { intros t Hs. rewrite (pending_same_tasks a1 a2 t Ht2).
    unfold task_pending. rewrite Ht1, Hs. unfold cancel.
    destruct (task_pending a t) eqn:Hp.
    - cbn [tasks set_tasks]. rewrite nth_error_set_status, Nat.eqb_refl.
      destruct (nth_error (tasks a) t); reflexivity.
    - exact Hp. }
  exists (set_connections (connections h) h2).
  split; [exact Hh3|]. split; [reflexivity|].
  destruct (connections h) as [|x rest] eqn:Hconn.
  - destruct (Hempty eq_refl) as [Hs3 Ht3]. split; [|split].
    + intros t Hs Hlt. specialize (Hold t Hs). unfold task_pending in *.
      rewrite Ht3, nth_error_app1 by (rewrite Hlen; exact Hlt). exact Hold.
    + intros _. split; [congruence|].
      rewrite Ht3, <- Hlen, nth_error_app2 by lia.
      rewrite Nat.sub_diag. cbn [nth_error]. congruence.
    + intros H. contradiction.
  - assert (Hne : x :: rest <> []) by discriminate.
    destruct (Hsome Hne) as [Hs3 Ht3]. split; [|split].
    + intros t Hs _. rewrite (pending_same_tasks a2 a3 t Ht3). apply Hold. exact Hs.
    + intros H. discriminate.
    + intros _. congruence.
Qed.

(** X19: [handleWsRequest] has no handler for what the read loop
    raises.  When a frame makes [onMessage] raise, the session ends with
    this exception, the client stays in the connection table with its
    socket, the slot of the shutdown task stays empty and no new task is
    scheduled. *)
Theorem X19_session_aborted env route c w msgs a h e :
  handler_lookup (handlers a) route = Some h ->
  fst (handleWsRequest env route c w msgs a) = Raise e ->
  exists h',
    handler_lookup (handlers (snd (handleWsRequest env route c w msgs a))) route
      = Some h' /\
    connections h' = assoc_set (connections h) c w /\
    ws_lookup (connections h') c = Some w /\
    shutdown_task (snd (handleWsRequest env route c w msgs a)) = None /\
    tasks (snd (handleWsRequest env route c w msgs a))
      = match shutdown_task a with
        | Some t => tasks (cancel t a)
        | None => tasks a
        end.
Proof.
  intros Hh Hraise. unfold handleWsRequest in *.
  destruct (handleWsRequest_open_run route c w a h Hh)
    as [a1 [h1 [Hopen [Hs1 [Ht1 [Hh1 Hc1]]]]]].
  rewrite Hopen in *.
  destruct (read_loop env route c msgs a1) as [r2 a2] eqn:Hloop.
  destruct (read_loop_frame env route c msgs a1 r2 a2 h1 Hh1 Hloop)
    as [Ht2 [Hs2 [Hto2 [h2 [Hh2 Hc2]]]]].
  assert (Hw : ws_lookup (connections h2) c = Some w).
  { rewrite Hc2, Hc1. apply ws_lookup_set. }
  destruct r2 as [u|e2].
  - destruct (handleWsRequest_close_run route c a2 h2 w Hh2 Hw)
      as [a3 [Hclose _]].
    rewrite Hclose in Hraise. discriminate.
  - cbn [snd]. exists h2. split; [exact Hh2|]. split; [congruence|].
    split; [exact Hw|]. split; congruence.
Qed.

(** ** Which texts are answered *)




(** ** The secret of the handler *)

(** X20: [setSecret] stores the new secret on the handler, and the hello
    test never looks at it.  After [setSecret], a hello that brings the
    new secret is refused with [AUTHENTICATION_ERROR] when the secret of
    the server protocol is another one, and a hello that brings the
    secret of the server protocol is still accepted. *)
Theorem X20_setSecret_not_used env newSecret id a a' rest c w p s :
  (before_colon id =? "system")%string = true ->
  c <> "" -> ws_lookup (connections (handler s)) c = Some w ->
  serverProtocol (handler s) = Some p ->
  newSecret <> secret p ->
  dict_get a "secret" = Some (VStr newSecret) ->
  dict_get a' "secret" = Some (VStr (secret p)) ->
  exists s0,
    setSecret newSecret s = (Ok tt, s0) /\
    handler_secret (handler s0) = Some newSecret /\
    handleSystemMessage env (VStr id) (VStr "wslink.hello") (VDict a :: rest) c s0 =
      (Ok true,
       logged [send_str w (wire (error_wrapper (VStr id) (AUTHENTICATION_ERROR env)
                                   "Authentication failed" VNone))] s0) /\
    handleSystemMessage env (VStr id) (VStr "wslink.hello") (VDict a' :: rest) c s0 =
      (Ok true,
       {| handler := handler s0;
          pm := pm_after_reply (pm s)
                  (wire (result_wrapper (VStr id) (hello_result c)));
          trace := trace s ++
                   reply_events (pm s) w
                     (wire (result_wrapper (VStr id) (hello_result c))) |}).
Proof.
  intros Hsys Hc Hw Hp Hne Ha Ha'.
  set (s0 := {| handler := set_handler_secret (Some newSecret) (handler s);
                pm := pm s; trace := trace s |}).
  assert (Hw0 : ws_lookup (connections (handler s0)) c = Some w) by exact Hw.
  assert (Hp0 : serverProtocol (handler s0) = Some p) by exact Hp.
  exists s0.
  split; [reflexivity|]. split; [reflexivity|]. split.
  - refine (proj2 (handleSystemMessage_hello env id (VDict a :: rest) c w p s0
                     Hsys Hc Hw0 Hp0) _).
    intros [a0 [r0 [Heq Hs]]]. injection Heq as <- _.
    rewrite Ha in Hs. injection Hs as Hs. contradiction.
  - refine (proj1 (handleSystemMessage_hello env id (VDict a' :: rest) c w p s0
                     Hsys Hc Hw0 Hp0) _).
    exists a', rest. split; [reflexivity|exact Ha'].
Qed.

(** ** Closing the sockets *)

Lemma close_events_distinct l :
  NoDup (map fst l) ->
  flat_map (fun client_id =>
              match ws_lookup l client_id with
              | Some w => [ws_close w GOING_AWAY "Server shutdown"]
              | None => []
              end) (map fst l) =
  map (fun cw => ws_close (snd cw) GOING_AWAY "Server shutdown") l.
Proof.
  induction l as [|[k w] r IH]; intros Hnd; [reflexivity|].
  cbn [map fst flat_map ws_lookup snd]. rewrite String.eqb_refl.
  cbn [app]. f_equal. inversion Hnd as [|x xs Hnotin Hnd']; subst.
  rewrite <- (IH Hnd').
  rewrite !flat_map_concat_map. f_equal. apply map_ext_in.
  intros k' Hin. destruct (String.eqb_spec k k') as [->|_]; [contradiction|].
  reflexivity.
Qed.

(** X21: [disconnectClients] never raises: it closes the socket of every
    client of the table once, in the order of the table, with the code
    GOING_AWAY and the message "Server shutdown", and it removes no
    client from the table. *)
Theorem X21_disconnectClients s :
  NoDup (map fst (connections (handler s))) ->
  disconnectClients s =
    (Ok tt,
     {| handler := handler s; pm := pm s;
        trace := trace s ++
                 map (fun cw => ws_close (snd cw) GOING_AWAY "Server shutdown")
                     (connections (handler s)) |}).
Proof.
  intros Hnd. rewrite disconnectClients_run. unfold logged, close_events.
  rewrite (close_events_distinct _ Hnd). reflexivity.
Qed.

(** ** The properties above on the sample server *)

Lemma X4_witness :
  exists evs,
    trace (snd (onMessage (sample_env [VDict echo_request])
                  (TEXT (wire (VDict echo_request))) sample_client sample_state))
      = (trace sample_state ++ evs)%list /\
    Forall (frames_to (fun w =>
              ws_lookup (connections (handler sample_state)) sample_client = Some w))
      evs.
Proof.
  apply (X4_replies_to_sender (sample_env [VDict echo_request])
           (TEXT (wire (VDict echo_request))) sample_client sample_state).
  discriminate.
Defined.

Lemma X5_witness :
  onMessage (sample_env [VDict two_key_header])
    (TEXT (wire (VDict two_key_header))) sample_client sample_state =
  (Ok tt, queued_state).
Proof.
  apply (X5_no_id_no_reply (sample_env [VDict two_key_header])
           (wire (VDict two_key_header)) two_key_header sample_client sample_state).
  - reflexivity.
  - reflexivity.
Defined.

Lemma X6_witness :
  exists received,
    run_messages (sample_env []) (map BINARY [[Byte.x00]]) sample_client queued_state =
      (Ok tt,
       {| handler := set_attachmentsReceived received
                       (set_attachmentsRecvQueue
                          (map VStr (skipn 1 ["wslink_bin0"; "wslink_bin1"]) ++ [])
                          (handler queued_state));
          pm := pm queued_state; trace := trace queued_state |}) /\
    (forall i k b,
       nth_error ["wslink_bin0"; "wslink_bin1"] i = Some k ->
       nth_error [[Byte.x00]] i = Some b ->
       recv_get received (VStr k) = Some b) /\
    (forall k, ~ In k (firstn 1 ["wslink_bin0"; "wslink_bin1"]) ->
       recv_get received (VStr k) =
       recv_get (attachmentsReceived (handler queued_state)) (VStr k)).
Proof.
  apply (X6_binary_frames_fifo (sample_env []) sample_client [[Byte.x00]]
           ["wslink_bin0"; "wslink_bin1"] [] queued_state).
  - simpl. lia.
  - repeat constructor; simpl; intuition discriminate.
  - reflexivity.
Defined.

Lemma X7_witness :
  exists s',
    (run_messages (sample_env []) (map BINARY [[Byte.x00]; [Byte.x01]]) sample_client ;;
     run_findAttachments (VList (map VStr ["wslink_bin0"; "wslink_bin1"]))) queued_state =
      (Ok (VList (map VBytes [[Byte.x00]; [Byte.x01]])), s') /\
    attachmentsRecvQueue (handler s') = [] /\
    pm s' = pm queued_state /\ trace s' = trace queued_state.
Proof.
  apply (X7_attachments_round_trip (sample_env []) sample_client
           [[Byte.x00]; [Byte.x01]] ["wslink_bin0"; "wslink_bin1"] [] queued_state).
  - reflexivity.
  - repeat constructor; simpl; intuition discriminate.
  - repeat constructor.
  - reflexivity.
Defined.

Lemma X8_witness :
  exists evs received,
    trace (snd (sendWrappedMessage (sample_env []) (VStr "rpc:3") two_keys
                  (VStr "echo.blob") (Some sample_client) two_blobs_state)) =
      (trace two_blobs_state ++ evs)%list /\
    frames_on 1%nat evs =
      (pair_frames two_blobs ["wslink_bin0"; "wslink_bin1"]
       ++ [TEXT (wire (result_wrapper (VStr "rpc:3") two_keys))])%list /\
    run_messages
      (sample_env [attachment_header "wslink_bin0"; attachment_header "wslink_bin1"])
      (pair_frames two_blobs ["wslink_bin0"; "wslink_bin1"]) "peer" sample_state =
      (Ok tt,
       {| handler := set_attachmentsReceived received (handler sample_state);
          pm := pm sample_state; trace := trace sample_state |}) /\
    (forall k, In k ["wslink_bin0"; "wslink_bin1"] ->
       exists b, blob_of (getAttachmentMap two_blobs) k = Some b /\
                 recv_get received (VStr k) = Some b).
Proof.
  apply (X8_sent_pairs_are_received (sample_env []) (VStr "rpc:3") two_keys
           (VStr "echo.blob") sample_client 1%nat two_blobs_state
           (wire (result_wrapper (VStr "rpc:3") two_keys))
           (sample_env [attachment_header "wslink_bin0"; attachment_header "wslink_bin1"])
           "peer" sample_state).
  - reflexivity.
  - discriminate.
  - reflexivity.
  - intros k Hin. vm_compute in Hin. destruct Hin as [<-|[<-|[]]]; reflexivity.
  - reflexivity.
Defined.


Lemma X10_witness :
  invoke (sample_env []) (VStr "rpc:5") (VStr "echo.blob") 0%nat echo_blob
    [VList [VStr "wslink_bin7"]] [] sample_client blob_received_state =
  (Ok tt,
   {| handler := set_attachmentsReceived [] (handler blob_received_state);
      pm := empty_pm;
      trace := trace blob_received_state ++
               [send_str 1%nat
                  (wire (error_wrapper (VStr "rpc:5") (-32002)
                           "Method result cannot be serialized" (VStr "echo.blob")))] |}).
Proof.
  apply (X10_result_not_serializable (sample_env []) "rpc:5" (VStr "echo.blob") 0%nat
           echo_blob [VList [VStr "wslink_bin7"]] [] sample_client 1%nat
           blob_received_state [VList [VBytes [Byte.x07]]] [] []
           (VList [VBytes [Byte.x07]]) empty_pm).
  - reflexivity.
  - discriminate.
  - reflexivity.
  - reflexivity.
  - reflexivity.
  - reflexivity.
Defined.

Lemma X11_witness :
  invoke (sample_env []) (VStr "rpc:6") (VStr "echo.blob") 0%nat echo_blob
    [VStr "wslink_bin7"] [] sample_client blob_received_state =
  (Ok tt,
   {| handler := set_attachmentsReceived [] (handler blob_received_state);
      pm := pm_after_reply
              {| attachmentMap := [("wslink_bin0", {| blob := [Byte.x07]; refcount := 0 |})];
                 attachmentId := 1 |}
              (wire (result_wrapper (VStr "rpc:6") (VStr "wslink_bin0")));
      trace := trace blob_received_state ++
               reply_events
                 {| attachmentMap := [("wslink_bin0", {| blob := [Byte.x07]; refcount := 0 |})];
                    attachmentId := 1 |}
                 1%nat (wire (result_wrapper (VStr "rpc:6") (VStr "wslink_bin0"))) |}).
Proof.
  apply (X11_method_returns (sample_env []) "rpc:6" (VStr "echo.blob") 0%nat
           echo_blob [VStr "wslink_bin7"] [] sample_client 1%nat
           blob_received_state [VBytes [Byte.x07]] [] []
           (VStr "wslink_bin0")
           {| attachmentMap := [("wslink_bin0", {| blob := [Byte.x07]; refcount := 0 |})];
              attachmentId := 1 |}).
  - discriminate.
  - reflexivity.
  - reflexivity.
  - reflexivity.
  - reflexivity.
Defined.


Lemma X13_witness :
  sendWrappedMessage (sample_env []) (VStr "publish:0") two_keys (VStr "")
    None two_clients_state =
    (Ok tt,
     {| handler := handler two_clients_state;
        pm := pm_after_reply two_blobs
                (wire (result_wrapper (VStr "publish:0") two_keys));
        trace := trace two_clients_state ++
                 broadcast_events two_blobs [1%nat; 2%nat]
                   (wire (result_wrapper (VStr "publish:0") two_keys)) |}) /\
  (connections (handler two_clients_state) = [] ->
   trace (snd (sendWrappedMessage (sample_env []) (VStr "publish:0") two_keys (VStr "")
                 None two_clients_state)) =
     (trace two_clients_state
      ++ flat_map (fun key => [pm_registerAttachment key; pm_unregisterAttachment key])
           (matched_keys two_blobs (wire (result_wrapper (VStr "publish:0") two_keys)))
      ++ match attachmentMap two_blobs with
         | [] => []
         | _ :: _ =>
             [pm_freeAttachments
                (found_keys_of two_blobs
                   (wire (result_wrapper (VStr "publish:0") two_keys)))]
         end)%list).
Proof.
  apply (X13_broadcast (sample_env []) (VStr "publish:0") two_keys (VStr "")
           None two_clients_state
           (wire (result_wrapper (VStr "publish:0") two_keys))).
  - left. reflexivity.
  - reflexivity.
Defined.


Lemma X15_witness :
  exists h',
    handler_lookup
      (handlers (snd (handleWsRequest (sample_env [VDict echo_request]) "ws"
                        sample_client 1%nat [TEXT (wire (VDict echo_request))]
                        (_on_startup fresh_app)))) "ws" = Some h' /\
    connections h' = connections (init_handler (Some sample_protocol)) /\
    (forall t, shutdown_task (_on_startup fresh_app) = Some t ->
       (t < List.length (tasks (_on_startup fresh_app)))%nat ->
       task_pending
         (snd (handleWsRequest (sample_env [VDict echo_request]) "ws"
                 sample_client 1%nat [TEXT (wire (VDict echo_request))]
                 (_on_startup fresh_app))) t = false) /\
    (connections (init_handler (Some sample_protocol)) = [] ->
     shutdown_task
       (snd (handleWsRequest (sample_env [VDict echo_request]) "ws"
               sample_client 1%nat [TEXT (wire (VDict echo_request))]
               (_on_startup fresh_app)))
       = Some (List.length (tasks (_on_startup fresh_app))) /\
     nth_error
       (tasks (snd (handleWsRequest (sample_env [VDict echo_request]) "ws"
                      sample_client 1%nat [TEXT (wire (VDict echo_request))]
                      (_on_startup fresh_app))))
       (List.length (tasks (_on_startup fresh_app)))
       = Some {| delay := timeout (_on_startup fresh_app); status := Pending |}) /\
    (connections (init_handler (Some sample_protocol)) <> [] ->
     shutdown_task
       (snd (handleWsRequest (sample_env [VDict echo_request]) "ws"
               sample_client 1%nat [TEXT (wire (VDict echo_request))]
               (_on_startup fresh_app))) = None).
Proof.
  apply (X15_session_round_trip (sample_env [VDict echo_request]) "ws" sample_client
           1%nat [TEXT (wire (VDict echo_request))] (_on_startup fresh_app)
           (init_handler (Some sample_protocol))).
  - reflexivity.
  - reflexivity.
  - reflexivity.
Defined.

Lemma X16_witness :
  exists a1,
    _stop_server sample_app = (Ok tt, a1) /\
    running a1 = Some true /\
    tasks a1 = tasks sample_app /\ shutdown_task a1 = shutdown_task sample_app /\
    handlers a1 = handlers sample_app /\
    transport a1 = (transport sample_app ++ all_close_events sample_app)%list /\
    (exists a2,
       _stop_server a1 = (Raise InvalidStateError, a2) /\
       transport a2 = (transport a1 ++ all_close_events sample_app)%list) /\
    (forall t, task_pending sample_app t = true ->
       exists a2,
         fire t a1 = (Raise InvalidStateError, a2) /\
         transport a2 = (transport a1 ++ all_close_events sample_app)%list).
Proof.
  apply (X16_stop_twice sample_app). reflexivity.
Defined.



Lemma X19_witness :
  exists h',
    handler_lookup
      (handlers (snd (handleWsRequest (sample_env []) "ws" sample_client 1%nat
                        [TEXT "{"] (_on_startup fresh_app)))) "ws" = Some h' /\
    connections h' =
      assoc_set (connections (init_handler (Some sample_protocol))) sample_client 1%nat /\
    ws_lookup (connections h') sample_client = Some 1%nat /\
    shutdown_task (snd (handleWsRequest (sample_env []) "ws" sample_client 1%nat
                          [TEXT "{"] (_on_startup fresh_app))) = None /\
    tasks (snd (handleWsRequest (sample_env []) "ws" sample_client 1%nat
                  [TEXT "{"] (_on_startup fresh_app)))
      = match shutdown_task (_on_startup fresh_app) with
        | Some t => tasks (cancel t (_on_startup fresh_app))
        | None => tasks (_on_startup fresh_app)
        end.
Proof.
  apply (X19_session_aborted (sample_env []) "ws" sample_client 1%nat [TEXT "{"]
           (_on_startup fresh_app) (init_handler (Some sample_protocol))
           JSONDecodeError).
  - reflexivity.
  - reflexivity.
Defined.

Lemma X20_witness :
  exists s0,
    setSecret "T" sample_state = (Ok tt, s0) /\
    handler_secret (handler s0) = Some "T" /\
    handleSystemMessage (sample_env []) (VStr "system:1") (VStr "wslink.hello")
      [VDict [("secret", VStr "T")]] sample_client s0 =
      (Ok true,
       logged [send_str 1%nat
                 (wire (error_wrapper (VStr "system:1") (-32000)
                          "Authentication failed" VNone))] s0) /\
    handleSystemMessage (sample_env []) (VStr "system:1") (VStr "wslink.hello")
      [VDict [("secret", VStr "S")]] sample_client s0 =
      (Ok true,
       {| handler := handler s0;
          pm := pm_after_reply (pm sample_state)
                  (wire (result_wrapper (VStr "system:1") (hello_result sample_client)));
          trace := trace sample_state ++
                   reply_events (pm sample_state) 1%nat
                     (wire (result_wrapper (VStr "system:1")
                              (hello_result sample_client))) |}).
Proof.
  apply (X20_setSecret_not_used (sample_env []) "T" "system:1"
           [("secret", VStr "T")] [("secret", VStr "S")] [] sample_client 1%nat
           sample_protocol sample_state).
  - reflexivity.
  - discriminate.
  - reflexivity.
  - reflexivity.
  - discriminate.
  - reflexivity.
  - reflexivity.
Defined.

Lemma X21_witness :
  disconnectClients two_clients_state =
    (Ok tt,
     {| handler := handler two_clients_state; pm := pm two_clients_state;
        trace := trace two_clients_state ++
                 [ws_close 1%nat GOING_AWAY "Server shutdown";
                  ws_close 2%nat GOING_AWAY "Server shutdown"] |}).
Proof.
  apply (X21_disconnectClients two_clients_state).
  repeat constructor; simpl; intuition discriminate.
Defined.
